(** * Chain set, send-only node verification and direct-request listener

    A shallow embedding of three pieces of the node:
    - [client]: the health state of a send-only node, [setState] and
      [verifyLoop];
    - [directrequestocr]: [ExtractRawBytes], the dispatch loop
      [processOracleEvents] and the per-event handlers;
    - [evm]: the chain registry ([Get], [Default], [Configure],
      [NewChainSet]).

    Goroutines are modelled by the work they are spawned with; channels by
    the sequence of wake-ups a [select] receives; collaborators behind Go
    interfaces by type classes or by records of their answers. *)

From Stdlib Require Import ZArith Lia Strings.Byte.
From stdpp Require Import gmap strings list fin_maps pretty.

Local Open Scope Z_scope.

(** ** Go values shared by the three packages *)

(** [big.Int.Cmp]. *)
Definition Cmp (x y : Z) : Z :=
  match x ?= y with
  | Lt => -1
  | Eq => 0
  | Gt => 1
  end.

(** Bytes are compared as Go compares them. *)
Global Instance byte_eq_dec : EqDecision byte := Byte.byte_eq_dec.

(** ** Package client: send-only node *)

Module client.

(** [type SendOnlyNodeState int], with its six [iota] constants. *)
Inductive SendOnlyNodeState : Set :=
| SendOnlyNodeStateUndialed
| SendOnlyNodeStateDialed
| SendOnlyNodeStateInvalidChainID
| SendOnlyNodeStateAlive
| SendOnlyNodeStateUnusable
| SendOnlyNodeStateClosed.

Global Instance SendOnlyNodeState_eq_dec : EqDecision SendOnlyNodeState.
Proof. solve_decision. Defined.

(** The integer behind each constant. *)
Definition to_int (s : SendOnlyNodeState) : Z :=
  match s with
  | SendOnlyNodeStateUndialed => 0
  | SendOnlyNodeStateDialed => 1
  | SendOnlyNodeStateInvalidChainID => 2
  | SendOnlyNodeStateAlive => 3
  | SendOnlyNodeStateUnusable => 4
  | SendOnlyNodeStateClosed => 5
  end.

Definition String (s : SendOnlyNodeState) : string :=
  match s with
  | SendOnlyNodeStateUndialed => "Undialed"
  | SendOnlyNodeStateDialed => "Dialed"
  | SendOnlyNodeStateInvalidChainID => "InvalidChainID"
  | SendOnlyNodeStateAlive => "Alive"
  | SendOnlyNodeStateUnusable => "Invalid"
  | SendOnlyNodeStateClosed => "Closed"
  end.

Definition GoString (s : SendOnlyNodeState) : string :=
  "SendOnlyNodeState" +:+ String s +:+ "(" +:+ pretty (to_int s) +:+ ")".

(** Modelled from the spec: [utils.StartStopOnce], embedded in
    [sendOnlyNode], is not among the sources.  The spec speaks of a Node
    being "still in started lifecycle"; the lifecycle is a third field of
    the node, independent of the health state. *)
Inductive StartStopOnceState : Set :=
| Unstarted
| Started
| Stopped.

Global Instance StartStopOnceState_eq_dec : EqDecision StartStopOnceState.
Proof. solve_decision. Defined.

Record sendOnlyNode : Set := {
  state : SendOnlyNodeState;
  chainID : Z;
  name : string;
  once : StartStopOnceState
}.

(** [setState]: the mutex only orders concurrent writers; the write itself
    is unconditional. *)
Definition setState (s : sendOnlyNode) (st : SendOnlyNodeState) : sendOnlyNode :=
  {| state := st; chainID := chainID s; name := name s; once := once s |}.

(** Modelled from the spec: [IfStarted f] runs [f] and reports [true] when
    the lifecycle is started, and otherwise reports [false] without
    running it. *)
Definition IfStarted (f : sendOnlyNode -> sendOnlyNode) (s : sendOnlyNode)
  : sendOnlyNode * bool :=
  if decide (once s = Started) then (f s, true) else (s, false).

(** What [s.sender.ChainID] answered. *)
Inductive ChainIDResult : Set :=
| ChainIDErr (err : string)
| ChainIDOk (id : Z).

(** Lines written to [s.log]. *)
Inductive LogLine : Set :=
| VerifyFailed (err : string)
| ChainIDMismatch (rpc local : Z) (node : string)
| NodeOnline (st : SendOnlyNodeState).

(** How the body of the [for] leaves: [continue] or [return]. *)
Inductive ctl : Set := Continue | Return.

(** The [time.After] case of the [select]: one verification attempt. *)
Definition verifyAttempt (s : sendOnlyNode) (r : ChainIDResult)
  : sendOnlyNode * list LogLine * ctl :=
  match r with
  | ChainIDErr err => (s, [VerifyFailed err], Continue)
  | ChainIDOk id =>
      if negb (Cmp id (chainID s) =? 0) then
        let '(s', ok) := IfStarted (fun n => setState n SendOnlyNodeStateInvalidChainID) s in
        if negb ok then (s', [], Return)
        else (s', [ChainIDMismatch id (chainID s') (name s')], Continue)
      else
        let '(s', ok) := IfStarted (fun n => setState n SendOnlyNodeStateAlive) s in
        if negb ok then (s', [], Return)
        else (s', [NodeOnline (state s')], Return)
  end.

(** What the [select] of one iteration receives.  [Lifecycle] is not a
    case of the [select]: it is another goroutine moving the node's
    lifecycle between two iterations. *)
Inductive wake : Set :=
| After (r : ChainIDResult)
| Stop
| Lifecycle (l : StartStopOnceState).

(** Whether [verifyLoop] has returned or is blocked in its [select] with
    nothing left to receive. *)
Inductive loopStatus : Set := Returned | Blocked.

(** [verifyLoop], driven by the sequence of wake-ups.  The backoff only
    fixes when a timer fires, not what the loop does then. *)
Fixpoint verifyLoop (s : sendOnlyNode) (ws : list wake)
  : sendOnlyNode * list LogLine * loopStatus :=
  match ws with
  | [] => (s, [], Blocked)
  | Stop :: _ => (s, [], Returned)
  | Lifecycle l :: ws' =>
      verifyLoop {| state := state s; chainID := chainID s; name := name s; once := l |} ws'
  | After r :: ws' =>
      let '(s', lg, c) := verifyAttempt s r in
      match c with
      | Return => (s', lg, Returned)
      | Continue =>
          let '(s'', lg', st) := verifyLoop s' ws' in (s'', lg ++ lg', st)
      end
  end.

(** Wake-ups after which the loop tries again: a failed query, or an
    identity other than [expected]; among them, the mismatches. *)
Definition retry (expected : Z) (w : wake) : bool :=
  match w with
  | After (ChainIDErr _) => true
  | After (ChainIDOk id) => negb (id =? expected)
  | _ => false
  end.

Definition mismatch (expected : Z) (w : wake) : bool :=
  match w with
  | After (ChainIDOk id) => negb (id =? expected)
  | _ => false
  end.

End client.


(** ** Package utils: what the listener uses of it *)

Module utils.

(** Value of one hexadecimal digit, as [encoding/hex] reads it. *)
Definition fromHexChar (c : byte) : option N :=
  let n := Byte.to_N c in
  if ((48 <=? n) && (n <=? 57))%N then Some (n - 48)%N
  else if ((97 <=? n) && (n <=? 102))%N then Some (n - 97 + 10)%N
  else if ((65 <=? n) && (n <=? 70))%N then Some (n - 65 + 10)%N
  else None.

(** [hex.DecodeString]: two digits per byte; a digit left alone or a
    character that is no digit is an error. *)
Fixpoint DecodeString (s : list byte) : option (list byte) :=
  match s with
  | [] => Some []
  | [_] => None
  | hi :: lo :: rest =>
      match fromHexChar hi, fromHexChar lo, DecodeString rest with
      | Some h, Some l, Some bs =>
          match Byte.of_N (h * 16 + l) with
          | Some b => Some (b :: bs)
          | None => None
          end
      | _, _, _ => None
      end
  end.

Definition HasHexPrefix (s : list byte) : bool :=
  match s with
  | c0 :: c1 :: _ => bool_decide (c0 = "0"%byte) && bool_decide (c1 = "x"%byte)
  | _ => false
  end.

(** Modelled from the spec: [utils.TryParseHex] is not among the sources.
    The spec has the pipeline hand over "a quoted even-length hexadecimal
    string prefixed 0x", decoded to its bytes ("0xabcd" gives the two bytes
    AB, CD): the prefix is required and dropped, and the digits after it are
    decoded pairwise.  [None] is the decode error. *)
Definition TryParseHex (s : list byte) : option (list byte) :=
  if HasHexPrefix s then DecodeString (drop 2 s) else None.

(** Modelled from the spec: [utils.Mailbox] is not among the sources.  An
    ordered buffer of bounded capacity; on overflow the single oldest record
    is evicted and the caller is told so.  The queue is kept oldest first. *)
Record Mailbox (T : Type) : Type := {
  queue : list T;
  capacity : nat
}.
Arguments queue {T} _.
Arguments capacity {T} _.

Definition Deliver {T} (m : Mailbox T) (x : T) : Mailbox T * bool :=
  if (length (queue m) <? capacity m)%nat
  then ({| queue := queue m ++ [x]; capacity := capacity m |}, false)
  else ({| queue := drop 1 (queue m) ++ [x]; capacity := capacity m |}, true).

Definition Retrieve {T} (m : Mailbox T) : Mailbox T * option T :=
  match queue m with
  | [] => (m, None)
  | x :: q => ({| queue := q; capacity := capacity m |}, Some x)
  end.

End utils.

(** ** Package directrequestocr: the listener *)

Module directrequestocr.

Definition ParseResultTaskName : string := "parse_result".
Definition ParseErrorTaskName : string := "parse_error".

(** The double-quote character. *)
Definition dquote : byte := x22.

(** The two errors [ExtractRawBytes] builds itself, and the one it passes on
    from [utils.TryParseHex]. *)
Inductive DecodeError : Set :=
| UnableToDecode (input : list byte)
| NotEvenHex (input : list byte)
| HexError (input : list byte).

(** [ExtractRawBytes].  [input[0]] and [input[len(input)-1]] are only read
    once [len(input) < 2] is known to be false. *)
Definition ExtractRawBytes (input : list byte) : list byte + DecodeError :=
  if (length input <? 2)%nat
     || negb (bool_decide (input !! 0%nat = Some dquote))
     || negb (bool_decide (input !! (length input - 1)%nat = Some dquote))
  then inr (UnableToDecode input)
  else
    let input' := take (length input - 2)%nat (drop 1 input) in
    if (length input' =? 0)%nat then inl []
    else if (length input' <? 4)%nat || negb (length input' mod 2 =? 0)%nat
    then inr (NotEvenHex input')
    else match utils.TryParseHex input' with
         | Some b => inl b
         | None => inr (HexError input')
         end.

(** A Go string literal as bytes, and the same between double quotes. *)
Definition bytes (s : string) : list byte := String.list_byte_of_string s.
Definition quoted (s : string) : list byte := dquote :: bytes s ++ [dquote].

(** *** Logs and broadcasts *)

(** [types.Log] of go-ethereum, as far as the handlers read it. *)
Record Log : Set := {
  BlockHash : Z;
  BlockNumber : Z;
  TxHash : Z;
  Address : Z
}.

Record OCR2DROracleOracleRequest : Set := {
  RequestId : Z;  (* [32]byte *)
  Data : list byte;
  Raw : Log
}.

Record OCR2DROracleOracleResponse : Set := {
  ResponseRequestId : Z  (* its RequestId field *)
}.

(** What [lb.DecodedLog()] holds. *)
Inductive DecodedLog : Set :=
| NilLog
| OracleRequest (request : OCR2DROracleOracleRequest)
| OracleResponse (response : OCR2DROracleOracleResponse)
| OtherLog (typ : string).

(** [log.Broadcast]; [lbKey] is what the consumed-marker store keys a
    record by. *)
Record Broadcast : Set := {
  lbKey : Z;
  decoded : DecodedLog
}.

(** *** Request rows *)

Inductive ErrType : Set := NODE_EXCEPTION | USER_EXCEPTION.

Inductive RequestState : Set :=
| PENDING
| CONFIRMED
| RESULT_SET (runID : Z) (result : list byte)
| ERROR_SET (runID : Z) (kind : ErrType) (payload : list byte)
| TIMED_OUT.

Record Request : Set := {
  CreatedAt : Z;
  RequestTxHash : Z;
  State : RequestState
}.

(** *** Collaborators *)

(** Calls made on the collaborators and lines logged, in order. *)
Inductive Event : Set :=
| CallCreateRequest (id : Z)
| CallRun (lb : Broadcast)
| CallMarkConsumed (lb : Broadcast)
| CallFindTaskResult (runID : Z) (task : string)
| CallSetError (id runID : Z) (kind : ErrType) (payload : list byte)
| CallSetResult (id runID : Z) (result : list byte)
| CallSetConfirmed (id : Z)
| Logged (line : string).

(** The answers of the collaborators that the listener cannot influence:
    which calls fail, and what the pipeline run produced. *)
Record Env : Type := {
  now : Z;
  wasAlreadyConsumedErr : Broadcast -> option string;
  markConsumedErr : Broadcast -> option string;
  createRequestErr : Z -> option string;
  (** pipeline run: the run ID, and its error if any *)
  pipelineRun : OCR2DROracleOracleRequest -> Broadcast -> Z * option string;
  (** [jobORM.FindTaskResultByRunIDAndTaskName] *)
  findTaskResult : Z -> string -> list byte * option string;
  setErrorErr : Z -> option string;
  setResultErr : Z -> option string;
  setConfirmedErr : Z -> option string
}.

(** The stores behind the collaborators, with the trace of what happened. *)
Record World : Type := {
  consumed : gset Z;
  requests : gmap Z Request;
  trace : list Event
}.

Definition emit (e : Event) (w : World) : World :=
  {| consumed := consumed w; requests := requests w; trace := trace w ++ [e] |}.

(** Modelled from the spec: [log.Broadcaster] is an interface declared
    outside the sources.  "Consumed marker: external record preventing
    duplicate processing of the same log event": a set of record keys. *)
Definition WasAlreadyConsumed (env : Env) (w : World) (lb : Broadcast)
  : bool * option string :=
  match wasAlreadyConsumedErr env lb with
  | Some e => (false, Some e)
  | None => (bool_decide (lbKey lb ∈ consumed w), None)
  end.

Definition MarkConsumed (env : Env) (lb : Broadcast) (w : World)
  : World * option string :=
  let w := emit (CallMarkConsumed lb) w in
  match markConsumedErr env lb with
  | Some e => (w, Some e)
  | None =>
      ({| consumed := {[lbKey lb]} ∪ consumed w; requests := requests w;
          trace := trace w |}, None)
  end.

Definition setRequestState (id : Z) (st : RequestState) (w : World) : World :=
  {| consumed := consumed w;
     requests := alter (fun r => {| CreatedAt := CreatedAt r;
                                    RequestTxHash := RequestTxHash r;
                                    State := st |}) id (requests w);
     trace := trace w |}.

(** Modelled from the spec: the plugin [ORM] is an interface declared
    outside the sources.  [CreateRequest] persists a new pending row keyed
    by the request identifier; [SetConfirmed], [SetResult] and [SetError]
    move the row of that identifier to the state they name. *)
Definition CreateRequest (env : Env) (id createdAt txHash : Z) (w : World)
  : World * option string :=
  let w := emit (CallCreateRequest id) w in
  match createRequestErr env id with
  | Some e => (w, Some e)
  | None =>
      ({| consumed := consumed w;
          requests := <[id := {| CreatedAt := createdAt; RequestTxHash := txHash;
                                 State := PENDING |}]> (requests w);
          trace := trace w |}, None)
  end.

Definition SetError (env : Env) (id runID : Z) (kind : ErrType)
  (payload : list byte) (w : World) : World * option string :=
  let w := emit (CallSetError id runID kind payload) w in
  match setErrorErr env id with
  | Some e => (w, Some e)
  | None => (setRequestState id (ERROR_SET runID kind payload) w, None)
  end.

Definition SetResult (env : Env) (id runID : Z) (result : list byte) (w : World)
  : World * option string :=
  let w := emit (CallSetResult id runID result) w in
  match setResultErr env id with
  | Some e => (w, Some e)
  | None => (setRequestState id (RESULT_SET runID result) w, None)
  end.

Definition SetConfirmed (env : Env) (id : Z) (w : World) : World * option string :=
  let w := emit (CallSetConfirmed id) w in
  match setConfirmedErr env id with
  | Some e => (w, Some e)
  | None => (setRequestState id CONFIRMED w, None)
  end.

(** Modelled from the spec: [pipeline.Runner] is an interface declared
    outside the sources.  [Run] reports the run's error if it has one; "on
    success, mark the originating log consumed transactionally together with
    the pipeline's own state commit (both-or-neither)": the commit callback
    runs exactly when the run succeeds. *)
Definition Run (env : Env) (request : OCR2DROracleOracleRequest) (lb : Broadcast)
  (onCommit : World -> World) (w : World) : World * Z * option string :=
  let w := emit (CallRun lb) w in
  let '(runID, err) := pipelineRun env request lb in
  match err with
  | Some e => (w, runID, Some e)
  | None => (onCommit w, runID, None)
  end.

Definition FindTaskResultByRunIDAndTaskName (env : Env) (runID : Z) (task : string)
  (w : World) : World * list byte * option string :=
  let '(b, err) := findTaskResult env runID task in
  (emit (CallFindTaskResult runID task) w, b, err).

(** *** The listener *)

Definition markLogConsumed (env : Env) (lb : Broadcast) (w : World) : World :=
  let '(w, err) := MarkConsumed env lb w in
  match err with
  | Some _ => emit (Logged "Unable to mark log consumed") w
  | None => w
  end.

(** [handleOracleRequest].  The variables handed to the pipeline are built
    from [request], [lb] and the job only, so the run is a function of
    those ([pipelineRun]). *)
Definition handleOracleRequest (env : Env) (request : OCR2DROracleOracleRequest)
  (lb : Broadcast) (w : World) : World :=
  let w := emit (Logged "Oracle request received") w in
  let '(w, err) := CreateRequest env (RequestId request) (now env) (TxHash (Raw request)) w in
  match err with
  | Some _ => emit (Logged "Failed to create a DB entry for new request") w
  | None =>
  let '(w, runID, err) := Run env request lb (markLogConsumed env lb) w in
  match err with
  | Some _ => emit (Logged "Pipeline run failed for request") w
  | None =>
  let '(w, computationResult, errResult) :=
    FindTaskResultByRunIDAndTaskName env runID ParseResultTaskName w in
  match errResult with
  | Some e =>
      (* Internal problem: Can't find parsed computation results *)
      let '(w, err2) := SetError env (RequestId request) runID NODE_EXCEPTION (bytes e) w in
      match err2 with
      | Some _ => emit (Logged "Call to SetError failed for request") w
      | None => w
      end
  | None =>
  match ExtractRawBytes computationResult with
  | inr _ => emit (Logged "Failed to extract result for request") w
  | inl computationResult =>
  let '(w, computationError, errErr) :=
    FindTaskResultByRunIDAndTaskName env runID ParseErrorTaskName w in
  match errErr with
  | Some e =>
      (* Internal problem: Can't find parsed computation error *)
      let '(w, err2) := SetError env (RequestId request) runID NODE_EXCEPTION (bytes e) w in
      match err2 with
      | Some _ => emit (Logged "Call to SetError failed for request") w
      | None => w
      end
  | None =>
  match ExtractRawBytes computationError with
  | inr _ => emit (Logged "Failed to extract error for request") w
  | inl computationError =>
  if negb (length computationError =? 0)%nat then
    let '(w, err2) := SetError env (RequestId request) runID USER_EXCEPTION computationError w in
    match err2 with
    | Some _ => emit (Logged "Call to SetError failed for request") w
    | None => w
    end
  else
    let '(w, err2) := SetResult env (RequestId request) runID computationResult w in
    match err2 with
    | Some _ => emit (Logged "Call to SetResult failed for request") w
    | None => w
    end
  end end end end end end.

Definition handleOracleResponse (env : Env) (response : OCR2DROracleOracleResponse)
  (lb : Broadcast) (w : World) : World :=
  let w := emit (Logged "Oracle response received") w in
  let '(w, err) := SetConfirmed env (ResponseRequestId response) w in
  match err with
  | Some _ => emit (Logged "Setting CONFIRMED state failed for request") w
  | None => w
  end.

(** A goroutine started by the dispatch loop ([go l.handle...]). *)
Inductive Task : Set :=
| GoHandleOracleRequest (request : OCR2DROracleOracleRequest) (lb : Broadcast)
| GoHandleOracleResponse (response : OCR2DROracleOracleResponse) (lb : Broadcast).

Definition runTask (env : Env) (w : World) (t : Task) : World :=
  match t with
  | GoHandleOracleRequest request lb => handleOracleRequest env request lb w
  | GoHandleOracleResponse response lb => handleOracleResponse env response lb w
  end.

(** [HandleLog]: only the two recognised kinds reach the mailbox. *)
Definition HandleLog (lb : Broadcast) (mb : utils.Mailbox Broadcast) (w : World)
  : utils.Mailbox Broadcast * World :=
  match decoded lb with
  | NilLog => (mb, emit (Logged "HandleLog: ignoring nil value") w)
  | OracleRequest _ | OracleResponse _ =>
      let '(mb, wasOverCapacity) := utils.Deliver mb lb in
      (mb, if wasOverCapacity
           then emit (Logged "OracleRequest log mailbox is over capacity - dropped the oldest log") w
           else w)
  | OtherLog _ => (mb, emit (Logged "Unexpected log type") w)
  end.

(** The body of the inner [for] of [processOracleEvents] once a record has
    been retrieved: the world after it (only the log grows) and the
    goroutines it started. *)
Definition dispatch (env : Env) (lb : Broadcast) (w : World) : World * list Task :=
  let '(was, err) := WasAlreadyConsumed env w lb in
  match err with
  | Some _ => (emit (Logged "Could not determine if log was already consumed") w, [])
  | None =>
      if was then (w, [])
      else match decoded lb with
           | NilLog => (emit (Logged "processOracleEvents: ignoring nil value") w, [])
           | OracleRequest request => (w, [GoHandleOracleRequest request lb])
           | OracleResponse response => (w, [GoHandleOracleResponse response lb])
           | OtherLog _ => (emit (Logged "Unexpected log type") w, [])
           end
  end.

(** How the inner [for] ends: [return] on the stop signal, [break] when the
    mailbox is empty. *)
Inductive drainExit : Set := StopSeen | MailboxEmpty.

(** The inner [for]: iteration [i] first looks at [chStop], then retrieves
    the oldest record of the mailbox [q].  [chStop i] tells whether the
    channel is closed when iteration [i] looks.  The result carries the
    records left in the mailbox. *)
Fixpoint drain (env : Env) (chStop : nat -> bool) (i : nat) (q : list Broadcast)
  (w : World) : World * list Task * list Broadcast * drainExit :=
  if chStop i then (w, [], q, StopSeen)
  else match q with
       | [] => (w, [], [], MailboxEmpty)
       | lb :: q' =>
           let '(w, ts) := dispatch env lb w in
           let '(w, ts', rest, ex) := drain env chStop (S i) q' w in
           (w, ts ++ ts', rest, ex)
       end.

(** What the outer [select] of [processOracleEvents] receives. *)
Inductive signal : Set :=
| ChStop
| Notify (chStop : nat -> bool).

(** One round of the outer [for] of [processOracleEvents]: on a
    notification the mailbox is drained, on the stop signal the loop
    returns. *)
Definition processOracleEvents (env : Env) (sig : signal)
  (mb : utils.Mailbox Broadcast) (w : World)
  : World * list Task * utils.Mailbox Broadcast * drainExit :=
  match sig with
  | ChStop => (w, [], mb, StopSeen)
  | Notify chStop =>
      let '(w, ts, rest, ex) := drain env chStop 0 (utils.queue mb) w in
      (w, ts, {| utils.queue := rest; utils.capacity := utils.capacity mb |}, ex)
  end.

(** *** Formatting *)

(** [fmt.Sprintf("0x%x", b)] for a byte slice or array [b]: two lower-case
    hexadecimal digits per byte after the prefix. *)
Definition hexDigit (n : N) : byte :=
  default "0"%byte (bytes "0123456789abcdef" !! N.to_nat n).

Definition hexOfByte (b : byte) : list byte :=
  [hexDigit (Byte.to_N b / 16); hexDigit (Byte.to_N b mod 16)].

Definition sprintf0x (b : list byte) : list byte :=
  bytes "0x" ++ (b ≫= hexOfByte).

(** [formatRequestId]; the request data is formatted in the same way. *)
Definition formatRequestId (requestId : list byte) : list byte :=
  sprintf0x requestId.

(** *** The timeout sweep *)




(** What the [select] of the sweeper receives: the stop signal, or a tick
    of the ticker, at which [time.Now()] is [now], in nanoseconds. *)
Inductive sweepWake : Set :=
| SweepStop
| Tick (now : Z).

Global Instance sweepWake_eq_dec : EqDecision sweepWake.
Proof. solve_decision. Defined.






(** The record a goroutine was started for. *)
Definition taskLog (t : Task) : Broadcast :=
  match t with
  | GoHandleOracleRequest _ lb => lb
  | GoHandleOracleResponse _ lb => lb
  end.

End directrequestocr.

(** ** Package evm: the chain set *)

Module evm.

(** Go errors: the two sentinels compared by identity, errors made on the
    spot ([errors.New], [errors.Errorf]), wrapped errors ([errors.Wrap]) and
    [multierr] aggregates. *)
#[local] Unset Elimination Schemes.
Inductive error : Set :=
| ErrNoChains
| ErrNoPrimaryNode
| ErrNew (msg : string)
| ErrWrap (cause : error) (msg : string)
| ErrMulti (errs : list error).
#[local] Set Elimination Schemes.

(** [errors.Cause]. *)
Fixpoint Cause (e : error) : error :=
  match e with
  | ErrWrap c _ => Cause c
  | _ => e
  end.

(** [errors.Cause(err) == ErrNoPrimaryNode], for an [err] that may be nil. *)
Definition causeIsNoPrimaryNode (err : option error) : bool :=
  match err with
  | Some e => match Cause e with ErrNoPrimaryNode => true | _ => false end
  | None => false
  end.

Definition errorsOf (e : error) : list error :=
  match e with
  | ErrMulti es => es
  | _ => [e]
  end.

(** [multierr.Combine] of two possibly nil errors. *)
Definition Combine (a b : option error) : option error :=
  match a, b with
  | None, _ => b
  | _, None => a
  | Some x, Some y => Some (ErrMulti (errorsOf x ++ errorsOf y))
  end.

Definition ErrNoDefault : error := ErrNew "no default chain ID specified".
Definition ErrNotFound (id : Z) : error :=
  ErrNew ("chain not found with id " +:+ pretty id).
Definition ErrDuplicate (cid : string) : error :=
  ErrNew ("duplicate chain with ID " +:+ cid).

(** [math.MaxInt16]. *)
Definition MaxInt16 : Z := 32767.

(** [types.Node], as far as a chain looks at it. *)
Record Node : Set := {
  NodeName : string;
  SendOnly : bool
}.

(** Modelled from the spec: the [chain] struct is declared outside the
    sources.  A Chain has a network identifier for identity and owns the
    nodes of its endpoints. *)
Record chain : Set := {
  id : Z;
  nodes : list Node
}.

(** What happened to chains and what was logged, in order. *)
Inductive Event : Set :=
| Started (c : chain)
| Closed (c : chain)
| Warned (line : string)
| Informed (line : string).

(** A call that returns, or one that panics. *)
Inductive outcome (A : Type) : Type :=
| Ret (a : A)
| Panic (why : string).
Arguments Ret {A} _.
Arguments Panic {A} _.

(** [config.GeneralConfig], as far as the chain set asks it. *)
Record GeneralConfig : Set := {
  EVMDisabled : bool;
  DefaultChainID : option Z
}.

(** [ChainSetOpts]: [None] is a nil [Logger] or a nil [Config].  The other
    fields are only handed on to [newChain]. *)
Record ChainSetOpts : Set := {
  Config : option GeneralConfig;
  Logger : option unit
}.

Definition checkOpts (opts : ChainSetOpts) : option error :=
  match Logger opts with
  | None => Some (ErrNew "logger must be non-nil")
  | Some _ =>
      match Config opts with
      | None => Some (ErrNew "config must be non-nil")
      | Some _ => None
      end
  end.

(** [chainSet]: [chains] maps the string form of an identifier to a
    [*chain], [None] being the nil pointer.  The logger is the event list of
    each operation, the ORM the database state threaded through it. *)
Record chainSet : Set := {
  defaultID : option Z;
  chains : gmap string (option chain);
  opts : ChainSetOpts
}.

(** [Get] past its nil test: what it does with an [id] that is not nil. *)
Definition getByID (cll : chainSet) (id : Z) : option chain * option error :=
  match chains cll !! pretty id with
  | Some c => (c, None)
  | None => (None, Some (ErrNotFound id))
  end.

(** [Default]; its call [cll.Get(cll.defaultID)] is made with a
    [defaultID] that is not nil. *)
Definition Default (cll : chainSet) : option chain * option error :=
  if (size (chains cll) =? 0)%nat then (None, Some ErrNoChains)
  else match defaultID cll with
       | None => (None, Some ErrNoDefault)
       | Some d => getByID cll d
       end.

Definition Get (cll : chainSet) (id : option Z) : option chain * option error :=
  match id with
  | None => Default cll
  | Some i => getByID cll i
  end.

Definition ChainCount (cll : chainSet) : nat := size (chains cll).

(** *** Reconfiguration and loading *)

Section WithCollaborators.

(** [types.ChainCfg] is declared outside the sources; the chain set only
    passes it on.  Its zero value is the [inhabitant]. *)
Context {ChainCfg : Type} `{!Inhabited ChainCfg}.

(** [types.Chain], a chain as the database has it. *)
Record DbChain : Type := {
  ID : Z;
  Cfg : ChainCfg;
  Nodes : list Node;
  Enabled : bool
}.

(** [types.Chain{}]. *)
Definition zeroChain : DbChain :=
  {| ID := 0; Cfg := inhabitant; Nodes := []; Enabled := false |}.

(** [types.ORM], over the database state [DB] its calls read and write. *)
Class ORM (DB : Type) : Type := {
  UpdateChain : DB -> Z -> bool -> ChainCfg -> DB * (DbChain * option error);
  NodesForChain : DB -> Z -> Z -> Z -> list Node * Z * option error;
  EnabledChainsWithNodes : DB -> list DbChain * option error
}.

Context {DB : Type} `{!ORM DB}.

(** [newChain] and the [Start] and [Close] of a chain are defined outside
    the sources: the constructor is a parameter, and so is the error, if
    any, with which a chain starts and closes. *)
Variable newChain : DbChain -> ChainSetOpts -> option chain * option error.
Variable startErr : chain -> option error.
Variable closeErr : chain -> option error.

(** [Configure]: the outcome, the chain set and the database after the
    call, and what happened on the way.  [id] is dereferenced on entry, so
    it is not nil. *)
Definition Configure (cll : chainSet) (db : DB) (id : Z) (enabled : bool)
  (config : ChainCfg)
  : outcome (DbChain * option error) * chainSet * DB * list Event :=
  (* Update configuration stored in the database *)
  let '(db, (dbchain, err)) := UpdateChain db id enabled config in
  match err with
  | Some e => (Ret (zeroChain, Some e), cll, db, [])
  | None =>
  let '(nodes, _, err) := NodesForChain db id 0 MaxInt16 in
  match err with
  | Some e => (Ret (zeroChain, Some e), cll, db, [])
  | None =>
  let dbchain := {| ID := ID dbchain; Cfg := Cfg dbchain; Nodes := nodes;
                    Enabled := Enabled dbchain |} in
  let '(chain, err) := Get cll (Some id) in
  let exists_ := bool_decide (err = None) in
  let cid := pretty id in
  if exists_ && negb enabled then
    (* Chain was toggled to disabled *)
    let cll := {| defaultID := defaultID cll; chains := delete cid (chains cll);
                  opts := opts cll |} in
    match chain with
    | None => (Panic "Close on a nil chain", cll, db, [])
    | Some c => (Ret (zeroChain, closeErr c), cll, db, [Closed c])
    end
  else if negb exists_ && enabled then
    (* Chain was toggled to enabled *)
    let '(chain, err) := newChain dbchain (opts cll) in
    let startAndInsert (warned : list Event) :=
      match chain with
      | None => (Panic "Start on a nil chain", cll, db, warned)
      | Some c =>
          match startErr c with
          | Some e => (Ret (zeroChain, Some e), cll, db, warned ++ [Started c])
          | None =>
              (Ret (dbchain, None),
               {| defaultID := defaultID cll;
                  chains := <[cid := Some c]> (chains cll);
                  opts := opts cll |},
               db, warned ++ [Started c])
          end
      end in
    if causeIsNoPrimaryNode err then
      startAndInsert [Warned ("EVM: No primary node found for chain " +:+ cid +:+
                              "; this chain will be ignored")]
    else match err with
         | Some e => (Ret (zeroChain, Some e), cll, db, [])
         | None => startAndInsert []
         end
  else (Ret (dbchain, None), cll, db, [])
  end end.

(** The [for] of [NewChainSet] over the remaining [dbchains], with the
    chain set and the aggregate error so far. *)
Fixpoint loadChains (o : ChainSetOpts) (dbchains : list DbChain) (cll : chainSet)
  (err : option error) : option chainSet * option error * list Event :=
  match dbchains with
  | [] => (Some cll, err, [])
  | d :: rest =>
      let cid := pretty (ID d) in
      let loading := Informed ("EVM: Loading chain " +:+ cid) in
      let '(chain, err2) := newChain d o in
      match err2 with
      | Some e2 =>
          if causeIsNoPrimaryNode err2 then
            let '(r, e, evs) := loadChains o rest cll err in
            (r, e, loading :: Warned ("EVM: No primary node found for chain " +:+ cid +:+
                                      "; this chain will be ignored") :: evs)
          else
            let '(r, e, evs) := loadChains o rest cll (Combine err err2) in
            (r, e, loading :: evs)
      | None =>
          match chains cll !! cid with
          | Some _ => (None, Some (ErrDuplicate cid), [loading])
          | None =>
              let '(r, e, evs) :=
                loadChains o rest
                  {| defaultID := defaultID cll; chains := <[cid := chain]> (chains cll);
                     opts := opts cll |} err in
              (r, e, loading :: evs)
          end
      end
  end.

Definition NewChainSet (o : ChainSetOpts) (dbchains : list DbChain)
  : option chainSet * option error * list Event :=
  match checkOpts o with
  | Some e => (None, Some e, [])
  | None =>
      let cll := {| defaultID := from_option DefaultChainID None (Config o);
                    chains := ∅; opts := o |} in
      let '(r, e, evs) := loadChains o dbchains cll None in
      (r, e, Informed "Creating ChainSet" :: evs)
  end.

Definition LoadChainSet (o : ChainSetOpts) (db : DB)
  : option chainSet * option error * list Event :=
  match checkOpts o with
  | Some e => (None, Some e, [])
  | None =>
      if from_option EVMDisabled false (Config o) then
        (Some {| defaultID := None; chains := ∅; opts := {| Config := None; Logger := None |} |},
         None, [Informed "EVM is disabled, no chains will be loaded"])
      else
        let '(dbchains, err) := EnabledChainsWithNodes db in
        match err with
        | Some e => (None, Some (ErrWrap e "error loading chains"), [])
        | None => NewChainSet o dbchains
        end
  end.

(** *** Vocabulary for the properties of loading *)

(** What is asked of the constructor: a chain built without error is not
    nil and carries the identifier of the database chain it was built
    from. *)
Definition newChain_sound : Prop :=
  forall d o p, newChain d o = (p, None) -> exists c, p = Some c /\ id c = ID d.

(** Every key of the registry is the string form of the identifier of the
    chain stored under it. *)
Definition registered_ok (cll : chainSet) : Prop :=
  forall k p, chains cll !! k = Some p -> exists c, p = Some c /\ pretty (id c) = k.

End WithCollaborators.

Arguments DbChain : clear implicits.
Arguments ORM : clear implicits.

(** *** Operations on every chain *)

(** [Chains]: the chains of the registry as a slice.  Go ranges over a map
    in an order it does not fix; the order here is that of [map_to_list],
    and the loops below are defined on the slice, so that what is proved of
    them holds whatever the order. *)
Definition Chains (cll : chainSet) : list (option chain) :=
  (map_to_list (chains cll)).*2.

(** The [for] that [Start], [Close], [Healthy] and [Ready] share: [op] is
    called on each chain of the slice in turn and its error is combined
    into [err]; [ev] is what the call leaves in the event list.  A call on
    a nil chain panics. *)
Fixpoint combineAll (op : chain -> option error) (ev : chain -> list Event)
  (cs : list (option chain)) (err : option error)
  : outcome (option error) * list Event :=
  match cs with
  | [] => (Ret err, [])
  | None :: _ => (Panic "call on a nil chain", [])
  | Some c :: rest =>
      let '(r, evs) := combineAll op ev rest (Combine err (op c)) in
      (r, ev c ++ evs)
  end.

Definition Start (startErr : chain -> option error) (cll : chainSet)
  : outcome (option error) * list Event :=
  let '(r, evs) := combineAll startErr (fun c => [Started c]) (Chains cll) None in
  match r with
  | Ret err =>
      (Ret err,
       evs ++ [Informed ("EVM: Started " +:+ pretty (Z.of_nat (size (chains cll))) +:+
                         " chains, default chain ID is " +:+
                         from_option pretty "<nil>" (defaultID cll))])
  | Panic why => (Panic why, evs)
  end.

Definition Close (closeErr : chain -> option error) (cll : chainSet)
  : outcome (option error) * list Event :=
  let '(r, evs) := combineAll closeErr (fun c => [Closed c]) (Chains cll) None in
  (r, Informed "EVM: stopping" :: evs).

Definition Healthy (healthyErr : chain -> option error) (cll : chainSet)
  : outcome (option error) :=
  (combineAll healthyErr (fun _ => []) (Chains cll) None).1.

Definition Ready (readyErr : chain -> option error) (cll : chainSet)
  : outcome (option error) :=
  (combineAll readyErr (fun _ => []) (Chains cll) None).1.

(** The errors an aggregate stands for, none for nil. *)
Definition errorsIn (err : option error) : list error :=
  match err with
  | Some e => errorsOf e
  | None => []
  end.

(** Whether the constructor builds the database chain [d] without error;
    whether it builds it or fails for want of a primary node; and the
    errors, if any, with which it fails otherwise. *)
Definition constructible {ChainCfg : Type}
  (newChain : DbChain ChainCfg -> ChainSetOpts -> option chain * option error)
  (o : ChainSetOpts) (d : DbChain ChainCfg) : bool :=
  match (newChain d o).2 with
  | None => true
  | Some _ => false
  end.

Definition skippable {ChainCfg : Type}
  (newChain : DbChain ChainCfg -> ChainSetOpts -> option chain * option error)
  (o : ChainSetOpts) (d : DbChain ChainCfg) : bool :=
  match (newChain d o).2 with
  | None => true
  | Some e => causeIsNoPrimaryNode (Some e)
  end.

Definition fatalErrors {ChainCfg : Type}
  (newChain : DbChain ChainCfg -> ChainSetOpts -> option chain * option error)
  (o : ChainSetOpts) (d : DbChain ChainCfg) : list error :=
  match (newChain d o).2 with
  | None => []
  | Some e => if causeIsNoPrimaryNode (Some e) then [] else errorsOf e
  end.

End evm.

(** * Sample values

    Concrete nodes, records and collaborators on which the properties below
    are exercised. *)

Module sample.

(** A started node of chain 5 that has dialed, and a node after shutdown. *)
Definition dialedNode : client.sendOnlyNode :=
  {| client.state := client.SendOnlyNodeStateDialed; client.chainID := 5;
     client.name := "sendonly"; client.once := client.Started |}.



(** A request record, and the log it was decoded from. *)
Definition rawLog : directrequestocr.Log :=
  {| directrequestocr.BlockHash := 11; directrequestocr.BlockNumber := 12;
     directrequestocr.TxHash := 13; directrequestocr.Address := 14 |}.

Definition request : directrequestocr.OCR2DROracleOracleRequest :=
  {| directrequestocr.RequestId := 1234;
     directrequestocr.Data := directrequestocr.bytes "cafe";
     directrequestocr.Raw := rawLog |}.

Definition requestLog : directrequestocr.Broadcast :=
  {| directrequestocr.lbKey := 99;
     directrequestocr.decoded := directrequestocr.OracleRequest request |}.

(** Collaborators that never fail, with a pipeline run 7 whose task
    [parse_result] produced [result] and whose task [parse_error] produced
    the quoted empty string. *)
Definition envWithResult (result : list byte) : directrequestocr.Env :=
  {| directrequestocr.now := 1000;
     directrequestocr.wasAlreadyConsumedErr := fun _ => None;
     directrequestocr.markConsumedErr := fun _ => None;
     directrequestocr.createRequestErr := fun _ => None;
     directrequestocr.pipelineRun := fun _ _ => (7, None);
     directrequestocr.findTaskResult := fun _ task =>
       if decide (task = directrequestocr.ParseResultTaskName)
       then (result, None)
       else (directrequestocr.quoted "", None);
     directrequestocr.setErrorErr := fun _ => None;
     directrequestocr.setResultErr := fun _ => None;
     directrequestocr.setConfirmedErr := fun _ => None |}.

(** The same, but the store of consumed markers cannot be asked. *)
Definition envMarkerStoreDown : directrequestocr.Env :=
  {| directrequestocr.now := 1000;
     directrequestocr.wasAlreadyConsumedErr := fun _ => Some "connection refused";
     directrequestocr.markConsumedErr := fun _ => None;
     directrequestocr.createRequestErr := fun _ => None;
     directrequestocr.pipelineRun := fun _ _ => (7, None);
     directrequestocr.findTaskResult := fun _ _ => (directrequestocr.quoted "", None);
     directrequestocr.setErrorErr := fun _ => None;
     directrequestocr.setResultErr := fun _ => None;
     directrequestocr.setConfirmedErr := fun _ => None |}.

Definition emptyWorld : directrequestocr.World :=
  {| directrequestocr.consumed := ∅; directrequestocr.requests := ∅;
     directrequestocr.trace := [] |}.

Definition emptyMailbox : utils.Mailbox directrequestocr.Broadcast :=
  {| utils.queue := []; utils.capacity := 3 |}.

(** The stop channel stays open. *)
Definition neverStopped : nat -> bool := fun _ => false.

(** One delivery of a record to the listener, followed to its end: the log
    broadcaster calls [HandleLog], the dispatch loop is notified and drains
    the mailbox, and the goroutines it started run to completion, one after
    the other. *)
Definition deliver (env : directrequestocr.Env) (lb : directrequestocr.Broadcast)
  (mb : utils.Mailbox directrequestocr.Broadcast) (w : directrequestocr.World)
  : utils.Mailbox directrequestocr.Broadcast * directrequestocr.World :=
  let '(mb, w) := directrequestocr.HandleLog lb mb w in
  let '(w, ts, mb, _) :=
    directrequestocr.processOracleEvents env (directrequestocr.Notify neverStopped) mb w in
  (mb, foldl (directrequestocr.runTask env) w ts).

(** Pipeline runs and request rows created, counted on a trace. *)
Definition isRun (e : directrequestocr.Event) : bool :=
  match e with directrequestocr.CallRun _ => true | _ => false end.
Definition isCreateRequest (e : directrequestocr.Event) : bool :=
  match e with directrequestocr.CallCreateRequest _ => true | _ => false end.
Definition isSetError (e : directrequestocr.Event) : bool :=
  match e with directrequestocr.CallSetError _ _ _ _ => true | _ => false end.
Definition count (p : directrequestocr.Event -> bool) (w : directrequestocr.World) : nat :=
  length (List.filter p (directrequestocr.trace w)).

(** [quiet w w']: from [w] to [w'] no pipeline run was made, no row was
    created, no marker was set and no row appeared or disappeared. *)
Definition quiet (w w' : directrequestocr.World) : Prop :=
  count isRun w' = count isRun w /\
  count isCreateRequest w' = count isCreateRequest w /\
  directrequestocr.consumed w' = directrequestocr.consumed w /\
  dom (directrequestocr.requests w') = dom (directrequestocr.requests w).

Definition isSetResult (e : directrequestocr.Event) : bool :=
  match e with directrequestocr.CallSetResult _ _ _ => true | _ => false end.
Definition isSetConfirmed (e : directrequestocr.Event) : bool :=
  match e with directrequestocr.CallSetConfirmed _ => true | _ => false end.
Definition isMarkConsumed (e : directrequestocr.Event) : bool :=
  match e with directrequestocr.CallMarkConsumed _ => true | _ => false end.

(** [confined id key w w']: from [w] to [w'] the trace only grew, no row
    other than that of request [id] changed, and no marker other than [key]
    was set, none being removed. *)
Definition confined (id key : Z) (w w' : directrequestocr.World) : Prop :=
  directrequestocr.trace w `prefix_of` directrequestocr.trace w' /\
  (forall j, j <> id ->
     directrequestocr.requests w' !! j = directrequestocr.requests w !! j) /\
  directrequestocr.consumed w ⊆ directrequestocr.consumed w' /\
  directrequestocr.consumed w' ⊆ {[key]} ∪ directrequestocr.consumed w.

(** A response record for the sample request. *)
Definition responseLog : directrequestocr.Broadcast :=
  {| directrequestocr.lbKey := 100;
     directrequestocr.decoded :=
       directrequestocr.OracleResponse {| directrequestocr.ResponseRequestId := 1234 |} |}.

(** A record that decodes to nothing. *)
Definition nilLog : directrequestocr.Broadcast :=
  {| directrequestocr.lbKey := 101; directrequestocr.decoded := directrequestocr.NilLog |}.


(** Modelled from the spec: [newChain] is defined outside the sources.  "A
    Chain whose node list lacks any node capable of acting as primary fails
    to construct with a non-fatal NoPrimaryNode condition"; a node can act
    as primary when it is not send-only.  The chain configuration is a
    number here. *)
Definition newChain (d : evm.DbChain Z) (o : evm.ChainSetOpts)
  : option evm.chain * option evm.error :=
  if existsb (fun n => negb (evm.SendOnly n)) (evm.Nodes d)
  then (Some {| evm.id := evm.ID d; evm.nodes := evm.Nodes d |}, None)
  else (None, Some (evm.ErrWrap evm.ErrNoPrimaryNode "failed to instantiate eth client")).

(** Chains that start and close without error. *)
Definition noErr : evm.chain -> option evm.error := fun _ => None.

(** Modelled from the spec: the persistence collaborator, in memory.
    [UpdateChain] overwrites the enabled flag and the configuration of a
    stored chain and returns the row; [NodesForChain] lists the nodes stored
    with it; [EnabledChainsWithNodes] lists the enabled rows. *)
Global Instance memORM : evm.ORM Z (gmap Z (evm.DbChain Z)) := {|
  evm.UpdateChain db id enabled cfg :=
    match db !! id with
    | None => (db, (evm.zeroChain, Some (evm.ErrNew "sql: no rows in result set")))
    | Some d =>
        (<[id := {| evm.ID := id; evm.Cfg := cfg; evm.Nodes := evm.Nodes d;
                    evm.Enabled := enabled |}]> db,
         ({| evm.ID := id; evm.Cfg := cfg; evm.Nodes := []; evm.Enabled := enabled |},
          None))
    end;
  evm.NodesForChain db id offset limit :=
    match db !! id with
    | None => ([], 0, None)
    | Some d =>
        (take (Z.to_nat limit) (drop (Z.to_nat offset) (evm.Nodes d)),
         Z.of_nat (length (evm.Nodes d)), None)
    end;
  evm.EnabledChainsWithNodes db :=
    (List.filter evm.Enabled (map_to_list db).*2, None)
|}.

Definition primaryNode : evm.Node := {| evm.NodeName := "primary"; evm.SendOnly := false |}.
Definition sendOnlyNode : evm.Node := {| evm.NodeName := "sendonly"; evm.SendOnly := true |}.

(** Chain 42 with a primary node, chain 43 with a send-only node alone. *)
Definition dbchain42 : evm.DbChain Z :=
  {| evm.ID := 42; evm.Cfg := 0; evm.Nodes := [primaryNode; sendOnlyNode];
     evm.Enabled := true |}.
Definition dbchain43 : evm.DbChain Z :=
  {| evm.ID := 43; evm.Cfg := 0; evm.Nodes := [sendOnlyNode]; evm.Enabled := false |}.

Definition database : gmap Z (evm.DbChain Z) :=
  <[42 := dbchain42]> (<[43 := dbchain43]> ∅).

Definition chainSetOpts : evm.ChainSetOpts :=
  {| evm.Config := Some {| evm.EVMDisabled := false; evm.DefaultChainID := Some 42 |};
     evm.Logger := Some () |}.

Definition chain42 : evm.chain :=
  {| evm.id := 42; evm.nodes := [primaryNode; sendOnlyNode] |}.

(** The chain set as loaded from [database]: chain 42 alone. *)
Definition loaded : evm.chainSet :=
  {| evm.defaultID := Some 42;
     evm.chains := {[ "42" := Some chain42 ]};
     evm.opts := chainSetOpts |}.

(** Chain 44, stored disabled, with a primary node; the database with it. *)
Definition dbchain44 : evm.DbChain Z :=
  {| evm.ID := 44; evm.Cfg := 0; evm.Nodes := [primaryNode]; evm.Enabled := false |}.

Definition database44 : gmap Z (evm.DbChain Z) := <[44 := dbchain44]> database.

Definition chain44 : evm.chain := {| evm.id := 44; evm.nodes := [primaryNode] |}.

(** Chains that fail to start, or to close. *)
Definition failing : evm.chain -> option evm.error :=
  fun _ => Some (evm.ErrNew "dial failed").

(** Collaborators of the listener, by what fails: the creation of the row,
    the pipeline run; the run otherwise produces [result] and [error] for
    the two tasks. *)
Definition envOf (createErr runErr : option string) (result error : list byte)
  : directrequestocr.Env :=
  {| directrequestocr.now := 1000;
     directrequestocr.wasAlreadyConsumedErr := fun _ => None;
     directrequestocr.markConsumedErr := fun _ => None;
     directrequestocr.createRequestErr := fun _ => createErr;
     directrequestocr.pipelineRun := fun _ _ => (7, runErr);
     directrequestocr.findTaskResult := fun _ task =>
       if decide (task = directrequestocr.ParseResultTaskName)
       then (result, None) else (error, None);
     directrequestocr.setErrorErr := fun _ => None;
     directrequestocr.setResultErr := fun _ => None;
     directrequestocr.setConfirmedErr := fun _ => None |}.

(** A world in which the sample request is pending. *)
Definition pendingWorld : directrequestocr.World :=
  {| directrequestocr.consumed := ∅;
     directrequestocr.requests :=
       {[ 1234 := {| directrequestocr.CreatedAt := 900;
                     directrequestocr.RequestTxHash := 13;
                     directrequestocr.State := directrequestocr.PENDING |} ]};
     directrequestocr.trace := [] |}.

(** The stop channel is found closed at the second look. *)
Definition stoppedAtSecondLook : nat -> bool := fun i => (1 <=? i)%nat.

(** Modelled from the spec: the persistence collaborator when the node
    table cannot be read.  [UpdateChain] writes and answers as [memORM]
    does; [NodesForChain] fails, as its signature allows and as
    [Configure] provides for. *)
Record nodesDown : Type := { rows : gmap Z (evm.DbChain Z) }.

Global Instance nodesDownORM : evm.ORM Z nodesDown := {|
  evm.UpdateChain db id enabled cfg :=
    let '(db', r) := evm.UpdateChain (rows db) id enabled cfg in ({| rows := db' |}, r);
  evm.NodesForChain db id offset limit :=
    ([], 0, Some (evm.ErrNew "pq: relation nodes is not reachable"));
  evm.EnabledChainsWithNodes db := evm.EnabledChainsWithNodes (rows db)
|}.

(** [database] behind that collaborator, and [database] without the row of
    chain 42. *)
Definition databaseNodesDown : nodesDown := {| rows := database |}.

Definition databaseWithout42 : gmap Z (evm.DbChain Z) := delete 42 database.

End sample.

(** * Properties *)

Lemma Cmp_eq_0 (x y : Z) : Cmp x y = 0 <-> x = y.
Proof.
  unfold Cmp. destruct (Z.compare_spec x y); split; intros; subst; try lia; done.
Qed.

Lemma Cmp_eqb (x y : Z) : (Cmp x y =? 0) = (x =? y).
Proof.
  destruct (Z.eqb_spec x y) as [->|Hne].
  - apply Z.eqb_eq, Cmp_eq_0. done.
  - apply Z.eqb_neq. intros H. by apply Hne, Cmp_eq_0.
Qed.

(** ** The send-only node *)

Section Client.
Import client.


(** The three outcomes of one attempt, by what the endpoint answered. *)
Lemma verifyAttempt_error s err :
  verifyAttempt s (ChainIDErr err) = (s, [VerifyFailed err], Continue).
Proof. reflexivity. Qed.

Lemma verifyAttempt_mismatch s id :
  id <> chainID s ->
  verifyAttempt s (ChainIDOk id) =
    if decide (once s = Started)
    then (setState s SendOnlyNodeStateInvalidChainID,
          [ChainIDMismatch id (chainID s) (name s)], Continue)
    else (s, [], Return).
Proof.
  intros Hne. unfold verifyAttempt, IfStarted. rewrite Cmp_eqb.
  destruct (Z.eqb_spec id (chainID s)); [done|].
  by destruct (decide (once s = Started)).
Qed.

Lemma verifyAttempt_match s :
  verifyAttempt s (ChainIDOk (chainID s)) =
    if decide (once s = Started)
    then (setState s SendOnlyNodeStateAlive, [NodeOnline SendOnlyNodeStateAlive], Return)
    else (s, [], Return).
Proof.
  unfold verifyAttempt, IfStarted. rewrite Cmp_eqb, Z.eqb_refl.
  by destruct (decide (once s = Started)).
Qed.

(** Once [verifyLoop] has returned, nothing that arrives later reaches it. *)
Lemma verifyLoop_returned_app ws : forall s ws' s' lg,
  verifyLoop s ws = (s', lg, Returned) ->
  verifyLoop s (ws ++ ws') = (s', lg, Returned).
Proof.
  induction ws as [|w ws IH]; intros s ws' s' lg H; simpl in *.
  - discriminate.
  - destruct w as [r| |l].
    + destruct (verifyAttempt s r) as [[s1 lg1] []].
      * destruct (verifyLoop s1 ws) as [[s2 lg2] st] eqn:E.
        injection H as <- <- ->. by rewrite (IH _ ws' _ _ E).
      * done.
    + done.
    + by apply IH.
Qed.

(** An attempt writes the health state only while the node is started, and
    then only [InvalidChainID] or [Alive]. *)
Lemma verifyAttempt_writes s r s' lg c :
  verifyAttempt s r = (s', lg, c) ->
  s' = s \/
  (once s = Started /\
   (s' = setState s SendOnlyNodeStateInvalidChainID \/
    s' = setState s SendOnlyNodeStateAlive)).
Proof.
  destruct r as [err|id]; simpl.
  - intros [= <- _ _]. by left.
  - unfold IfStarted.
    destruct (negb (Cmp id (chainID s) =? 0)), (decide (once s = Started));
      simpl; intros [= <- _ _]; eauto.
Qed.





(** C6: one iteration of [verifyLoop], by what the identity query answers.
    An error changes nothing and the loop goes on with the next wake-up; an
    identity other than the expected one writes [InvalidChainID] into the
    state field, every other field kept, and the loop goes on if the node is
    started, and otherwise the loop returns with the node untouched; the
    expected identity writes [Alive] into the state field if the node is
    started, and the loop returns either way.  After it has returned, no
    later wake-up changes anything: the loop is not entered again.  The node
    after each write is spelt out field by field. *)
Theorem C6_verifyLoop_iteration (s : sendOnlyNode) :
  (forall err ws,
      verifyLoop s (After (ChainIDErr err) :: ws) =
        let '(s', lg, st) := verifyLoop s ws in (s', VerifyFailed err :: lg, st)) /\
  (forall id ws,
      id <> chainID s ->
      verifyLoop s (After (ChainIDOk id) :: ws) =
        if decide (once s = Started)
        then let '(s', lg, st) :=
               verifyLoop {| state := SendOnlyNodeStateInvalidChainID;
                             chainID := chainID s; name := name s; once := once s |} ws in
             (s', ChainIDMismatch id (chainID s) (name s) :: lg, st)
        else (s, [], Returned)) /\
  (forall id,
      id <> chainID s ->
      once s = Started ->
      exists s' lg,
        verifyLoop s [After (ChainIDOk id)] = (s', lg, Blocked) /\
        state s' = SendOnlyNodeStateInvalidChainID) /\
  (forall ws,
      verifyLoop s (After (ChainIDOk (chainID s)) :: ws) =
        if decide (once s = Started)
        then ({| state := SendOnlyNodeStateAlive;
                 chainID := chainID s; name := name s; once := once s |},
              [NodeOnline SendOnlyNodeStateAlive], Returned)
        else (s, [], Returned)) /\
  (forall ws ws' s' lg,
      verifyLoop s ws = (s', lg, Returned) ->
      verifyLoop s (ws ++ ws') = (s', lg, Returned)).
Proof.
  split; [|split; [|split; [|split]]].
  - intros err ws. cbn [verifyLoop]. rewrite verifyAttempt_error. reflexivity.
  - intros id ws Hne. cbn [verifyLoop]. rewrite (verifyAttempt_mismatch _ _ Hne).
    destruct (decide (once s = Started)); reflexivity.
  - intros id Hne Hon. cbn [verifyLoop]. rewrite (verifyAttempt_mismatch _ _ Hne).
    destruct (decide (once s = Started)) as [_|Hoff]; [|contradiction].
    eexists _, _. split; reflexivity.
  - intros ws. cbn [verifyLoop]. rewrite verifyAttempt_match.
    destruct (decide (once s = Started)); reflexivity.
  - intros ws ws'. apply verifyLoop_returned_app.
Qed.

Lemma C6_verifyLoop_iteration_witness :
  4 <> chainID sample.dialedNode /\
  verifyLoop sample.dialedNode [After (ChainIDOk 4)] =
    ({| state := SendOnlyNodeStateInvalidChainID;
        chainID := 5; name := "sendonly"; once := Started |},
     [ChainIDMismatch 4 5 "sendonly"], Blocked) /\
  verifyLoop sample.dialedNode [After (ChainIDOk 4); After (ChainIDOk 5)] =
    ({| state := SendOnlyNodeStateAlive;
        chainID := 5; name := "sendonly"; once := Started |},
     [ChainIDMismatch 4 5 "sendonly"; NodeOnline SendOnlyNodeStateAlive], Returned) /\
  verifyLoop sample.dialedNode
    ([After (ChainIDOk 4); After (ChainIDOk 5)] ++ [After (ChainIDOk 4)]) =
    ({| state := SendOnlyNodeStateAlive;
        chainID := 5; name := "sendonly"; once := Started |},
     [ChainIDMismatch 4 5 "sendonly"; NodeOnline SendOnlyNodeStateAlive], Returned).
Proof.
  assert (4 <> chainID sample.dialedNode) as Hne by (simpl; lia).
  split; [exact Hne|].
  split; [|split].
  - rewrite (proj1 (proj2 (C6_verifyLoop_iteration sample.dialedNode)) 4 _ Hne).
    reflexivity.
  - rewrite (proj1 (proj2 (C6_verifyLoop_iteration sample.dialedNode)) 4 _ Hne).
    reflexivity.
  - apply (proj2 (proj2 (proj2 (proj2 (C6_verifyLoop_iteration sample.dialedNode))))).
    reflexivity.
Defined.

End Client.

(** ** The listener *)

Section Listener.
Import directrequestocr.

(** *** Decoding task outputs *)

Lemma quoted_inner (content : list byte) :
  take (length (dquote :: content ++ [dquote]) - 2) (drop 1 (dquote :: content ++ [dquote]))
  = content.
Proof.
  cbn [drop length]. rewrite length_app. cbn [length].
  replace (S (length content + 1) - 2)%nat with (length content) by lia.
  rewrite drop_0. by rewrite take_app_length.
Qed.

(** What [ExtractRawBytes] does with an input that is between quotes. *)
Lemma ExtractRawBytes_quoted (content : list byte) :
  ExtractRawBytes (dquote :: content ++ [dquote]) =
    if (length content =? 0)%nat then inl []
    else if (length content <? 4)%nat || negb (length content mod 2 =? 0)%nat
    then inr (NotEvenHex content)
    else match utils.TryParseHex content with
         | Some b => inl b
         | None => inr (HexError content)
         end.
Proof.
  unfold ExtractRawBytes. rewrite quoted_inner.
  assert (length (dquote :: content ++ [dquote]) = S (S (length content))) as Hlen.
  { cbn [length]. rewrite length_app. cbn [length]. lia. }
  rewrite Hlen.
  replace (S (S (length content)) - 1)%nat with (S (length content)) by lia.
  assert ((dquote :: content ++ [dquote]) !! S (length content) = Some dquote) as ->.
  { change ((content ++ [dquote]) !! length content = Some dquote).
    by apply list_lookup_middle. }
  change ((dquote :: content ++ [dquote]) !! 0%nat) with (Some dquote).
  rewrite !bool_decide_eq_true_2 by done. reflexivity.
Qed.

(** An input that passes the first test of [ExtractRawBytes] is between
    quotes. *)
Lemma surrounded_of_checks (input : list byte) :
  (2 <= length input)%nat ->
  input !! 0%nat = Some dquote ->
  input !! (length input - 1)%nat = Some dquote ->
  exists content, input = dquote :: content ++ [dquote].
Proof.
  intros Hlen H0 Hlast.
  destruct input as [|a rest]; [done|]. injection H0 as ->.
  destruct (decide (rest = [])) as [->|Hne]; [simpl in Hlen; lia|].
  destruct (exists_last Hne) as (content & z & ->).
  exists content. f_equal. f_equal.
  cbn [length] in Hlast. rewrite length_app in Hlast. cbn [length] in Hlast.
  replace (S (length content + 1) - 1)%nat with (S (length content)) in Hlast by lia.
  change ((content ++ [z]) !! length content = Some dquote) in Hlast.
  rewrite list_lookup_middle in Hlast by done. by injection Hlast as ->.
Qed.

Lemma ExtractRawBytes_unquoted (input : list byte) :
  (forall content, input <> dquote :: content ++ [dquote]) ->
  ExtractRawBytes input = inr (UnableToDecode input).
Proof.
  intros Hno. unfold ExtractRawBytes.
  destruct (length input <? 2)%nat eqn:Hlen; [done|].
  apply Nat.ltb_ge in Hlen.
  destruct (decide (input !! 0%nat = Some dquote)) as [H0|H0];
    [|by rewrite (bool_decide_eq_false_2 _ H0)].
  destruct (decide (input !! (length input - 1)%nat = Some dquote)) as [H1|H1];
    [|by rewrite (bool_decide_eq_false_2 _ H1), orb_true_r].
  destruct (surrounded_of_checks input Hlen H0 H1) as [content ->].
  by destruct (Hno content).
Qed.

(** C4 (as the spec states it, refuted): the quoted input ["0xab"] has a
    content of four characters, which is even and not below four; it is
    decoded to the single byte AB and is no decode error. *)
Lemma C4_quoted_0xab_is_decoded :
  ExtractRawBytes (quoted "0xab") = inl [xab] /\
  ~ exists e, ExtractRawBytes (quoted "0xab") = inr e.
Proof.
  split; [reflexivity|]. intros [e He]. vm_compute in He. discriminate.
Qed.

(** C4 (amended): [ExtractRawBytes] maps the two quotes alone to the empty
    byte sequence, the quoted ["0xabcd"] to the bytes AB, CD and the quoted
    ["0xab"] to the byte AB; it returns a decode error for a quoted content
    that is not empty and is shorter than four characters or of odd length,
    and for every input that is not between double quotes. *)
Theorem C4_ExtractRawBytes :
  ExtractRawBytes (quoted "") = inl [] /\
  ExtractRawBytes (quoted "0xabcd") = inl [xab; xcd] /\
  ExtractRawBytes (quoted "0xab") = inl [xab] /\
  (forall content,
      content <> [] ->
      (length content < 4 \/ length content mod 2 <> 0)%nat ->
      ExtractRawBytes (dquote :: content ++ [dquote]) = inr (NotEvenHex content)) /\
  (forall input,
      (forall content, input <> dquote :: content ++ [dquote]) ->
      ExtractRawBytes input = inr (UnableToDecode input)).
Proof.
  split; [reflexivity|]. split; [reflexivity|]. split; [reflexivity|]. split.
  - intros content Hne Hbad. rewrite ExtractRawBytes_quoted.
    destruct content as [|c content]; [done|].
    change (length (c :: content) =? 0)%nat with false. cbv iota.
    destruct Hbad as [Hshort|Hodd].
    + apply Nat.ltb_lt in Hshort. by rewrite Hshort.
    + apply Nat.eqb_neq in Hodd. by rewrite Hodd, orb_true_r.
  - apply ExtractRawBytes_unquoted.
Qed.

Lemma C4_ExtractRawBytes_witness :
  ExtractRawBytes (quoted "0xa") = inr (NotEvenHex (bytes "0xa")) /\
  ExtractRawBytes (bytes "0xabcd") = inr (UnableToDecode (bytes "0xabcd")).
Proof.
  destruct C4_ExtractRawBytes as (_ & _ & _ & Hquoted & Hbare). split.
  - apply (Hquoted (bytes "0xa")); [discriminate|]. left. vm_compute. lia.
  - apply (Hbare (bytes "0xabcd")). intros content. discriminate.
Defined.

(** *** The dispatch loop *)

Lemma dispatch_consumed env w lb :
  WasAlreadyConsumed env w lb = (true, None) -> dispatch env lb w = (w, []).
Proof. intros H. unfold dispatch. by rewrite H. Qed.

Lemma dispatch_marker_error env w lb e :
  wasAlreadyConsumedErr env lb = Some e ->
  dispatch env lb w =
    (emit (Logged "Could not determine if log was already consumed") w, []).
Proof. intros H. unfold dispatch, WasAlreadyConsumed. by rewrite H. Qed.

(** A record that starts no goroutine and leaves the world [w'] is passed
    over: the loop goes on with the next record. *)
Lemma drain_skip env chStop i lb q w w' :
  chStop i = false ->
  dispatch env lb w = (w', []) ->
  drain env chStop i (lb :: q) w = drain env chStop (S i) q w'.
Proof.
  intros Hs Hd. cbn [drain]. rewrite Hs, Hd.
  by destruct (drain env chStop (S i) q w') as [[[w'' ts] rest] ex].
Qed.

(** C10: when [WasAlreadyConsumed] itself fails for a drained record, the
    failure is logged, no handler is started for the record (so no pipeline
    run), and the loop goes on with the next record of the mailbox. *)
Theorem C10_marker_error_skips_record env chStop i lb q w e :
  chStop i = false ->
  wasAlreadyConsumedErr env lb = Some e ->
  dispatch env lb w =
    (emit (Logged "Could not determine if log was already consumed") w, []) /\
  drain env chStop i (lb :: q) w =
    drain env chStop (S i) q
      (emit (Logged "Could not determine if log was already consumed") w).
Proof.
  intros Hs He. pose proof (dispatch_marker_error env w lb e He) as Hd.
  split; [exact Hd|]. by apply drain_skip.
Qed.

Lemma C10_marker_error_skips_record_witness :
  drain sample.envMarkerStoreDown sample.neverStopped 0
    [sample.requestLog; sample.requestLog] sample.emptyWorld =
  (emit (Logged "Could not determine if log was already consumed")
     (emit (Logged "Could not determine if log was already consumed") sample.emptyWorld),
   [], [], MailboxEmpty).
Proof.
  rewrite (proj2 (C10_marker_error_skips_record sample.envMarkerStoreDown
                    sample.neverStopped 0%nat sample.requestLog [sample.requestLog]
                    sample.emptyWorld "connection refused" eq_refl eq_refl)).
  reflexivity.
Defined.

(** *** Handling a request *)

Lemma count_emit p e w :
  sample.count p (emit e w) = (sample.count p w + (if p e then 1 else 0))%nat.
Proof.
  unfold sample.count, emit. cbn [trace].
  rewrite List.filter_app, length_app. cbn [List.filter].
  by destruct (p e).
Qed.

(** Unfolds the handler down to the stores and the trace. *)
Ltac open_handler :=
  unfold handleOracleRequest, handleOracleResponse, CreateRequest, Run,
    markLogConsumed, MarkConsumed, FindTaskResultByRunIDAndTaskName,
    SetError, SetResult, SetConfirmed, setRequestState.

(** Counts events on a world written out as a record. *)
Ltac count_events :=
  unfold sample.count, emit; cbn [trace consumed requests];
  repeat rewrite List.filter_app; repeat rewrite length_app;
  cbn [List.filter length sample.isRun sample.isCreateRequest sample.isSetError];
  lia.

(** C1 (what the code does where the claim fails): after a successful
    pipeline run, when the output of [parse_result] is found but is rejected
    by [ExtractRawBytes], or when it is accepted and the output of
    [parse_error] is found but rejected, the handler only logs: it makes no
    call to [SetError], and the row of the request is still pending. *)
Theorem C1_malformed_output_leaves_request_pending env request lb w runID b1 :
  createRequestErr env (RequestId request) = None ->
  pipelineRun env request lb = (runID, None) ->
  findTaskResult env runID ParseResultTaskName = (b1, None) ->
  ((exists e, ExtractRawBytes b1 = inr e) \/
   (exists r b2 e2,
       ExtractRawBytes b1 = inl r /\
       findTaskResult env runID ParseErrorTaskName = (b2, None) /\
       ExtractRawBytes b2 = inr e2)) ->
  sample.count sample.isSetError (handleOracleRequest env request lb w)
    = sample.count sample.isSetError w /\
  requests (handleOracleRequest env request lb w) !! RequestId request
    = Some {| CreatedAt := now env; RequestTxHash := TxHash (Raw request);
              State := PENDING |}.
Proof.
  intros Hcreate Hrun Hfind Hbad. open_handler.
  rewrite Hcreate, Hrun, Hfind.
  destruct Hbad as [[e He]|(r & b2 & e2 & Hr & Hfind2 & He2)].
  - rewrite He.
    destruct (markConsumedErr env lb);
      (split; [count_events | cbn [consumed requests trace emit]; apply lookup_insert_eq]).
  - rewrite Hr, Hfind2, He2.
    destruct (markConsumedErr env lb);
      (split; [count_events | cbn [consumed requests trace emit]; apply lookup_insert_eq]).
Qed.

Lemma C1_malformed_output_leaves_request_pending_witness :
  sample.count sample.isSetError
    (handleOracleRequest (sample.envWithResult (bytes "0xabcd")) sample.request
       sample.requestLog sample.emptyWorld) = 0%nat /\
  requests
    (handleOracleRequest (sample.envWithResult (bytes "0xabcd")) sample.request
       sample.requestLog sample.emptyWorld) !! 1234
  = Some {| CreatedAt := 1000; RequestTxHash := 13; State := PENDING |}.
Proof.
  apply (C1_malformed_output_leaves_request_pending
           (sample.envWithResult (bytes "0xabcd")) sample.request sample.requestLog
           sample.emptyWorld 7 (bytes "0xabcd") eq_refl eq_refl eq_refl).
  left. exists (UnableToDecode (bytes "0xabcd")). reflexivity.
Defined.

(** The path next to it: when the output of [parse_result] cannot be found,
    [SetError] is called with [NODE_EXCEPTION] and the row leaves the
    pending state. *)
Lemma handleOracleRequest_lookup_failure env request lb w runID b e :
  createRequestErr env (RequestId request) = None ->
  pipelineRun env request lb = (runID, None) ->
  findTaskResult env runID ParseResultTaskName = (b, Some e) ->
  setErrorErr env (RequestId request) = None ->
  sample.count sample.isSetError (handleOracleRequest env request lb w)
    = S (sample.count sample.isSetError w) /\
  requests (handleOracleRequest env request lb w) !! RequestId request
    = Some {| CreatedAt := now env; RequestTxHash := TxHash (Raw request);
              State := ERROR_SET runID NODE_EXCEPTION (bytes e) |}.
Proof.
  intros Hcreate Hrun Hfind Hset. open_handler.
  rewrite Hcreate, Hrun, Hfind, Hset.
  destruct (markConsumedErr env lb);
    (split; [count_events
            | cbn [consumed requests trace emit];
              by rewrite lookup_alter_eq, lookup_insert_eq]).
Qed.

(** **** What each collaborator call leaves behind *)

Lemma quiet_refl w : sample.quiet w w.
Proof. by repeat split. Qed.

Lemma quiet_trans w1 w2 w3 : sample.quiet w1 w2 -> sample.quiet w2 w3 -> sample.quiet w1 w3.
Proof.
  intros (? & ? & ? & ?) (? & ? & ? & ?). repeat split; congruence.
Qed.

Lemma quiet_emit e w :
  sample.isRun e = false -> sample.isCreateRequest e = false -> sample.quiet w (emit e w).
Proof.
  intros Hr Hc. repeat split; rewrite ?count_emit, ?Hr, ?Hc; try done; lia.
Qed.

Lemma quiet_Logged line w : sample.quiet w (emit (Logged line) w).
Proof. by apply quiet_emit. Qed.

Lemma quiet_setRequestState id st w : sample.quiet w (setRequestState id st w).
Proof.
  repeat split. unfold setRequestState. cbn [requests]. by rewrite dom_alter_L.
Qed.

Lemma SetError_quiet env id runID kind payload w w' err :
  SetError env id runID kind payload w = (w', err) -> sample.quiet w w'.
Proof.
  unfold SetError. destruct (setErrorErr env id); intros [= <- <-].
  - by apply quiet_emit.
  - eapply quiet_trans; [|apply quiet_setRequestState]. by apply quiet_emit.
Qed.

Lemma SetResult_quiet env id runID result w w' err :
  SetResult env id runID result w = (w', err) -> sample.quiet w w'.
Proof.
  unfold SetResult. destruct (setResultErr env id); intros [= <- <-].
  - by apply quiet_emit.
  - eapply quiet_trans; [|apply quiet_setRequestState]. by apply quiet_emit.
Qed.

Lemma SetConfirmed_quiet env id w w' err :
  SetConfirmed env id w = (w', err) -> sample.quiet w w'.
Proof.
  unfold SetConfirmed. destruct (setConfirmedErr env id); intros [= <- <-].
  - by apply quiet_emit.
  - eapply quiet_trans; [|apply quiet_setRequestState]. by apply quiet_emit.
Qed.

Lemma FindTaskResult_quiet env runID task w w' b err :
  FindTaskResultByRunIDAndTaskName env runID task w = (w', b, err) -> sample.quiet w w'.
Proof.
  unfold FindTaskResultByRunIDAndTaskName.
  destruct (findTaskResult env runID task). intros [= <- _ _]. by apply quiet_emit.
Qed.

Lemma CreateRequest_effects env id createdAt txHash w w' err :
  CreateRequest env id createdAt txHash w = (w', err) ->
  sample.count sample.isCreateRequest w' = S (sample.count sample.isCreateRequest w) /\
  sample.count sample.isRun w' = sample.count sample.isRun w /\
  consumed w' = consumed w /\
  match err with
  | Some _ => requests w' = requests w
  | None => dom (requests w') = {[id]} ∪ dom (requests w)
  end.
Proof.
  unfold CreateRequest. destruct (createRequestErr env id); intros [= <- <-].
  - repeat split; rewrite ?count_emit; cbn; lia.
  - repeat split; try count_events. cbn [requests emit]. by rewrite dom_insert_L.
Qed.

Lemma Run_effects env request lb w w' runID err :
  Run env request lb (markLogConsumed env lb) w = (w', runID, err) ->
  sample.count sample.isRun w' = S (sample.count sample.isRun w) /\
  sample.count sample.isCreateRequest w' = sample.count sample.isCreateRequest w /\
  requests w' = requests w /\
  (consumed w' = consumed w \/ consumed w' = {[lbKey lb]} ∪ consumed w).
Proof.
  unfold Run, markLogConsumed, MarkConsumed.
  destruct (pipelineRun env request lb) as [r [e|]].
  - intros [= <- _ _]. repeat split; rewrite ?count_emit; cbn; try lia. by left.
  - destruct (markConsumedErr env lb); intros [= <- _];
      (repeat split; [count_events|count_events|]); cbn [consumed emit]; auto.
Qed.

(** The handler steps, one collaborator call at a time. *)
Ltac handler_steps :=
  repeat match goal with
    | H : SetError _ _ _ _ _ _ = _ |- _ => apply SetError_quiet in H
    | H : SetResult _ _ _ _ _ = _ |- _ => apply SetResult_quiet in H
    | H : SetConfirmed _ _ _ = _ |- _ => apply SetConfirmed_quiet in H
    | H : FindTaskResultByRunIDAndTaskName _ _ _ _ = _ |- _ =>
        apply FindTaskResult_quiet in H
    | H : CreateRequest _ _ _ _ _ = _ |- _ => apply CreateRequest_effects in H
    | H : Run _ _ _ _ _ = _ |- _ => apply Run_effects in H
    end.

(** What a run of the request handler leaves behind: always one more
    [CreateRequest] call; and either nothing else (the row could not be
    created), or one more pipeline run, the row of the request, and at most
    the marker of this record. *)
Lemma handleOracleRequest_effects env request lb w :
  sample.count sample.isCreateRequest (handleOracleRequest env request lb w)
    = S (sample.count sample.isCreateRequest w) /\
  ((sample.count sample.isRun (handleOracleRequest env request lb w)
      = sample.count sample.isRun w /\
    consumed (handleOracleRequest env request lb w) = consumed w /\
    requests (handleOracleRequest env request lb w) = requests w) \/
   (sample.count sample.isRun (handleOracleRequest env request lb w)
      = S (sample.count sample.isRun w) /\
    dom (requests (handleOracleRequest env request lb w))
      = {[RequestId request]} ∪ dom (requests w) /\
    (consumed (handleOracleRequest env request lb w) = consumed w \/
     consumed (handleOracleRequest env request lb w) = {[lbKey lb]} ∪ consumed w))).
Proof.
  pose proof (quiet_Logged "Oracle request received" w) as H0.
  unfold handleOracleRequest.
  repeat case_match; simplify_eq; handler_steps;
    repeat match goal with
      | |- context [emit (Logged ?l) ?w'] =>
          lazymatch goal with
          | _ : sample.quiet w' (emit (Logged l) w') |- _ => fail
          | _ => pose proof (quiet_Logged l w')
          end
      end;
    unfold sample.quiet in *; destruct_and?.
  all: repeat match goal with
         | |- context [requests (emit ?e ?x)] =>
             change (requests (emit e x)) with (requests x)
         | H : context [requests (emit ?e ?x)] |- _ =>
             change (requests (emit e x)) with (requests x) in H
         end.
  all: split; [congruence|].
  all: first [ left; repeat split; congruence
             | right; split; [congruence|]; split; [congruence|];
               destruct_or?; [left|right]; congruence ].
Qed.

(** *** Redelivery *)

(** What the dispatch loop does with a request record: it passes it over,
    at most logging, or, the record not being marked consumed, it starts
    the request handler. *)
Lemma dispatch_request env lb request w w' ts :
  decoded lb = OracleRequest request ->
  dispatch env lb w = (w', ts) ->
  (ts = [] /\ sample.quiet w w') \/
  ((lbKey lb ∉ consumed w) /\ w' = w /\ ts = [GoHandleOracleRequest request lb]).
Proof.
  intros Hdec. unfold dispatch, WasAlreadyConsumed. rewrite Hdec.
  destruct (wasAlreadyConsumedErr env lb).
  - intros [= <- <-]. left. split; [done|apply quiet_Logged].
  - destruct (bool_decide (lbKey lb ∈ consumed w)) eqn:Hc; intros [= <- <-].
    + left. split; [done|apply quiet_refl].
    + right. apply bool_decide_eq_false in Hc. done.
Qed.

Lemma dispatch_request_consumed env lb request w w' ts :
  decoded lb = OracleRequest request ->
  lbKey lb ∈ consumed w ->
  dispatch env lb w = (w', ts) ->
  ts = [] /\ sample.quiet w w'.
Proof.
  intros Hdec Hin Hd.
  destruct (dispatch_request _ _ _ _ _ _ Hdec Hd) as [?|(Hnot & _)]; [done|].
  by destruct Hnot.
Qed.

(** One delivery of a request record to a listener whose mailbox is empty:
    the world when the dispatch loop looks at the record differs from [w]
    at most by the capacity warning. *)
Lemma deliver_request env lb request cap w :
  decoded lb = OracleRequest request ->
  exists w0, sample.quiet w w0 /\
    sample.deliver env lb {| utils.queue := []; utils.capacity := cap |} w =
      ({| utils.queue := []; utils.capacity := cap |},
       foldl (runTask env) (dispatch env lb w0).1 (dispatch env lb w0).2).
Proof.
  intros Hdec. unfold sample.deliver, HandleLog, utils.Deliver. rewrite Hdec.
  cbn [utils.queue utils.capacity length].
  destruct (0 <? cap)%nat.
  - exists w. split; [apply quiet_refl|].
    unfold processOracleEvents. cbn [utils.queue utils.capacity app drain sample.neverStopped].
    destruct (dispatch env lb w) as [w' ts]. by rewrite app_nil_r.
  - exists (emit (Logged "OracleRequest log mailbox is over capacity - dropped the oldest log") w).
    split; [apply quiet_Logged|].
    unfold processOracleEvents.
    cbn [utils.queue utils.capacity app drop drain sample.neverStopped].
    destruct (dispatch env lb _) as [w' ts]. by rewrite app_nil_r.
Qed.

(** C2: a drained record that the marker store reports as consumed is passed
    over: the dispatch loop starts no handler for it and leaves the stores
    as they are (no pipeline run, no request row), and goes on with the
    next record.  Hence, when a request record is delivered, handled and
    found marked consumed, and is then delivered again, the two deliveries
    together make exactly one pipeline run and create exactly one request
    row. *)
Theorem C2_consumed_record_is_skipped :
  (forall env w lb,
      WasAlreadyConsumed env w lb = (true, None) -> dispatch env lb w = (w, [])) /\
  (forall env chStop i lb q w,
      chStop i = false ->
      WasAlreadyConsumed env w lb = (true, None) ->
      drain env chStop i (lb :: q) w = drain env chStop (S i) q w) /\
  (forall env1 env2 request lb cap w mb1 w1 mb2 w2,
      decoded lb = OracleRequest request ->
      lbKey lb ∉ consumed w ->
      sample.deliver env1 lb {| utils.queue := []; utils.capacity := cap |} w = (mb1, w1) ->
      lbKey lb ∈ consumed w1 ->
      sample.deliver env2 lb mb1 w1 = (mb2, w2) ->
      sample.count sample.isRun w2 = S (sample.count sample.isRun w) /\
      sample.count sample.isCreateRequest w2 = S (sample.count sample.isCreateRequest w) /\
      dom (requests w2) = {[RequestId request]} ∪ dom (requests w)).
Proof.
  split; [|split].
  - apply dispatch_consumed.
  - intros env chStop i lb q w Hs Hw. apply drain_skip; [done|].
    by apply dispatch_consumed.
  - intros env1 env2 request lb cap w mb1 w1 mb2 w2 Hdec Hfresh H1 Hin H2.
    destruct (deliver_request env1 lb request cap w Hdec) as (w0 & Hq0 & E1).
    rewrite E1 in H1. injection H1 as <- <-.
    destruct (deliver_request env2 lb request cap
                (foldl (runTask env1) (dispatch env1 lb w0).1 (dispatch env1 lb w0).2) Hdec)
      as (w0' & Hq0' & E2).
    rewrite E2 in H2. injection H2 as _ <-.
    destruct (dispatch env1 lb w0) as [wa ts] eqn:Hd1. cbn [fst snd] in *.
    destruct (dispatch env2 lb w0') as [wb ts'] eqn:Hd2. cbn [fst snd] in *.
    assert (lbKey lb ∈ consumed w0') as Hin'.
    { destruct Hq0' as (_ & _ & -> & _). done. }
    destruct (dispatch_request_consumed _ _ _ _ _ _ Hdec Hin' Hd2) as [-> Hqb].
    cbn [foldl].
    destruct (dispatch_request _ _ _ _ _ _ Hdec Hd1) as [[-> Hqa]|(_ & -> & ->)].
    + (* the first delivery was passed over: the marker cannot have appeared *)
      cbn [foldl] in *. exfalso. apply Hfresh.
      destruct Hq0 as (_ & _ & <- & _). destruct Hqa as (_ & _ & <- & _). done.
    + cbn [foldl runTask] in *.
      pose proof (handleOracleRequest_effects env1 request lb w0) as [Hc Hr].
      unfold sample.quiet in *. destruct_and?.
      destruct Hr as [(_ & Hsame & _)|(Hrun & Hdom & _)].
      * exfalso. apply Hfresh. congruence.
      * repeat split; congruence.
Qed.

Lemma C2_consumed_record_is_skipped_witness :
  let env := sample.envWithResult (quoted "0xabcd") in
  let first := sample.deliver env sample.requestLog sample.emptyMailbox sample.emptyWorld in
  let second := sample.deliver env sample.requestLog first.1 first.2 in
  sample.count sample.isRun second.2 = 1%nat /\
  sample.count sample.isCreateRequest second.2 = 1%nat /\
  dom (requests second.2) = {[1234]} ∪ dom (requests sample.emptyWorld).
Proof.
  intros env first second.
  apply (proj2 (proj2 C2_consumed_record_is_skipped) env env sample.request
           sample.requestLog 3%nat sample.emptyWorld first.1 first.2 second.1 second.2).
  - reflexivity.
  - apply not_elem_of_empty.
  - apply surjective_pairing.
  - refine (bool_decide_unpack _ _). vm_compute. exact I.
  - apply surjective_pairing.
Defined.

End Listener.

(** ** The chain set *)

Section ChainSet.
Import evm.

Context {ChainCfg : Type} `{!Inhabited ChainCfg} {DB : Type} `{!ORM ChainCfg DB}.
Variable newChain : DbChain ChainCfg -> ChainSetOpts -> option chain * option error.
Variable startErr closeErr : chain -> option error.

Lemma getByID_found cll i p :
  chains cll !! pretty i = Some p -> getByID cll i = (p, None).
Proof. intros H. unfold getByID. by rewrite H. Qed.

Lemma getByID_absent cll i :
  chains cll !! pretty i = None -> getByID cll i = (None, Some (ErrNotFound i)).
Proof. intros H. unfold getByID. by rewrite H. Qed.

(** C8: [Default] fails with [ErrNoChains] on an empty registry, with the
    error "no default chain ID specified" on a registry that is not empty
    when no default identifier is set, and otherwise returns what
    [Get] returns for the default identifier. *)
Theorem C8_Default (cll : chainSet) :
  (chains cll = ∅ -> Default cll = (None, Some ErrNoChains)) /\
  (chains cll <> ∅ -> defaultID cll = None -> Default cll = (None, Some ErrNoDefault)) /\
  (forall d, chains cll <> ∅ -> defaultID cll = Some d -> Default cll = Get cll (Some d)).
Proof.
  unfold Default. split; [|split].
  - intros ->. by rewrite map_size_empty.
  - intros Hne ->. apply map_size_non_empty_iff, Nat.eqb_neq in Hne. by rewrite Hne.
  - intros d Hne ->. apply map_size_non_empty_iff, Nat.eqb_neq in Hne. by rewrite Hne.
Qed.

Lemma C8_Default_witness :
  Default {| defaultID := Some 42; chains := ∅; opts := sample.chainSetOpts |}
    = (None, Some ErrNoChains) /\
  Default sample.loaded = Get sample.loaded (Some 42).
Proof.
  split.
  - apply (proj1 (C8_Default _)). reflexivity.
  - apply (proj2 (proj2 (C8_Default sample.loaded)) 42); [|reflexivity].
    intros H. apply (f_equal (fun m => m !! "42")) in H. vm_compute in H. discriminate.
Defined.

(** *** Loading *)

Lemma loadChains_registered (Hnew : newChain_sound newChain) o dbchains :
  forall cll err cll' err' evs,
    registered_ok cll ->
    loadChains newChain o dbchains cll err = (Some cll', err', evs) ->
    registered_ok cll' /\
    (forall k p, chains cll !! k = Some p -> chains cll' !! k = Some p) /\
    (forall d p, d ∈ dbchains -> newChain d o = (p, None) ->
                 chains cll' !! pretty (ID d) = Some p).
Proof.
  induction dbchains as [|d rest IH]; intros cll err cll' err' evs Hok Hload;
    cbn [loadChains] in Hload.
  - injection Hload as <- _ _. split; [done|]. split; [done|].
    intros d p Hd. by apply elem_of_nil in Hd.
  - destruct (newChain d o) as [chain [e2|]] eqn:Hnc.
    + destruct (causeIsNoPrimaryNode (Some e2)).
      * destruct (loadChains newChain o rest cll err) as [[r e] evs'] eqn:Hrec.
        injection Hload as -> -> _.
        destruct (IH _ _ _ _ _ Hok Hrec) as (Hok' & Hkeep & Hreg).
        split; [done|]. split; [done|].
        intros d' p [->|Hin]%elem_of_cons Hd'; [congruence|by eapply Hreg].
      * destruct (loadChains newChain o rest cll (Combine err (Some e2)))
          as [[r e] evs'] eqn:Hrec.
        injection Hload as -> -> _.
        destruct (IH _ _ _ _ _ Hok Hrec) as (Hok' & Hkeep & Hreg).
        split; [done|]. split; [done|].
        intros d' p [->|Hin]%elem_of_cons Hd'; [congruence|by eapply Hreg].
    + destruct (chains cll !! pretty (ID d)) eqn:Hdup; [discriminate|].
      destruct (loadChains newChain o rest _ err) as [[r e] evs'] eqn:Hrec.
      injection Hload as -> -> _.
      assert (registered_ok
                {| defaultID := defaultID cll;
                   chains := <[pretty (ID d) := chain]> (chains cll);
                   opts := opts cll |}) as Hok1.
      { intros k p. cbn [chains]. intros [[<- <-]|[Hne Hk]]%lookup_insert_Some.
        - destruct (Hnew _ _ _ Hnc) as (c & -> & Hid). exists c. by rewrite Hid.
        - by apply Hok. }
      destruct (IH _ _ _ _ _ Hok1 Hrec) as (Hok' & Hkeep & Hreg).
      split; [done|]. split.
      * intros k p Hk. apply Hkeep. cbn [chains].
        rewrite lookup_insert_ne; [done|]. intros <-. congruence.
      * intros d' p [->|Hin]%elem_of_cons Hd'; [|by eapply Hreg].
        apply Hkeep. cbn [chains]. rewrite lookup_insert_eq. congruence.
Qed.

(** C7: after the chain set has been built from the database chains,
    [Get] of an identifier that is registered returns a chain whose
    identifier has the same string form, and every database chain that
    could be constructed is registered; [Get] of an identifier that is not
    registered fails with the error "chain not found with id ..."; [Get] of
    the nil identifier is [Default]. *)
Theorem C7_Get_after_load (Hnew : newChain_sound newChain) o dbchains cll err evs :
  NewChainSet newChain o dbchains = (Some cll, err, evs) ->
  (forall i, is_Some (chains cll !! pretty i) ->
             exists c, Get cll (Some i) = (Some c, None) /\ pretty (id c) = pretty i) /\
  (forall d p, d ∈ dbchains -> newChain d o = (p, None) ->
               is_Some (chains cll !! pretty (ID d))) /\
  (forall i, chains cll !! pretty i = None ->
             Get cll (Some i) = (None, Some (ErrNotFound i))) /\
  Get cll None = Default cll.
Proof.
  unfold NewChainSet. destruct (checkOpts o); [discriminate|].
  destruct (loadChains _ _ _ _ _) as [[r e] evs'] eqn:Hload.
  intros [= -> -> _].
  apply (loadChains_registered Hnew) in Hload as (Hok & _ & Hreg).
  2: { intros k p. cbn [chains]. by rewrite lookup_empty. }
  split; [|split; [|split]].
  - intros i [p Hp]. destruct (Hok _ _ Hp) as (c & -> & Hid).
    exists c. split; [|done]. by apply getByID_found.
  - intros d p Hd Hnc. rewrite (Hreg d p Hd Hnc). done.
  - intros i. apply getByID_absent.
  - reflexivity.
Qed.

(** *** Reconfiguration *)

(** [Configure] up to the point where the registry is looked at. *)
Lemma Configure_persisted cll db id enabled cfg db' dbchain nodes n :
  UpdateChain db id enabled cfg = (db', (dbchain, None)) ->
  NodesForChain db' id 0 MaxInt16 = (nodes, n, None) ->
  Configure newChain startErr closeErr cll db id enabled cfg =
    let dbchain := {| ID := ID dbchain; Cfg := Cfg dbchain; Nodes := nodes;
                      Enabled := Enabled dbchain |} in
    let '(chain, err) := Get cll (Some id) in
    let exists_ := bool_decide (err = None) in
    let cid := pretty id in
    if exists_ && negb enabled then
      let cll := {| defaultID := defaultID cll; chains := delete cid (chains cll);
                    opts := opts cll |} in
      match chain with
      | None => (Panic "Close on a nil chain", cll, db', [])
      | Some c => (Ret (zeroChain, closeErr c), cll, db', [Closed c])
      end
    else if negb exists_ && enabled then
      let '(chain, err) := newChain dbchain (opts cll) in
      let startAndInsert (warned : list Event) :=
        match chain with
        | None => (Panic "Start on a nil chain", cll, db', warned)
        | Some c =>
            match startErr c with
            | Some e => (Ret (zeroChain, Some e), cll, db', warned ++ [Started c])
            | None =>
                (Ret (dbchain, None),
                 {| defaultID := defaultID cll;
                    chains := <[cid := Some c]> (chains cll);
                    opts := opts cll |},
                 db', warned ++ [Started c])
            end
        end in
      if causeIsNoPrimaryNode err then
        startAndInsert [Warned ("EVM: No primary node found for chain " +:+ cid +:+
                                "; this chain will be ignored")]
      else match err with
           | Some e => (Ret (zeroChain, Some e), cll, db', [])
           | None => startAndInsert []
           end
    else (Ret (dbchain, None), cll, db', []).
Proof. intros HU HN. unfold Configure. rewrite HU, HN. reflexivity. Qed.

(** Whatever the database answers, [Configure] leaves in it what
    [UpdateChain] left, and when the registry need not change it is not
    touched and no chain is started or closed. *)
Lemma Configure_no_change cll db id enabled cfg :
  (is_Some (chains cll !! pretty id) <-> enabled = true) ->
  exists r,
    Configure newChain startErr closeErr cll db id enabled cfg =
      (Ret r, cll, (UpdateChain db id enabled cfg).1, []).
Proof.
  intros Hsame. unfold Configure.
  destruct (UpdateChain db id enabled cfg) as [db' [dbchain [e|]]]; [by eexists|].
  destruct (NodesForChain db' id 0 MaxInt16) as [[nodes n] [e|]]; [by eexists|].
  cbn [Get fst]. unfold getByID.
  destruct (chains cll !! pretty id) as [p|] eqn:Hp.
  - rewrite (proj1 Hsame) by done. cbn. by eexists.
  - destruct enabled; [|cbn; by eexists].
    destruct (proj2 Hsame eq_refl) as [? [=]].
Qed.

(** C9, with the condition the code puts on it: once the persisted
    configuration has been updated and the nodes of the chain read back,
    both without error, [Configure] with [enabled = false] on a chain that
    is registered removes it from the registry and closes it exactly once
    (the only event is its [Close]).  When the chain is registered and
    enabled is asked, or is not registered and disabled is asked, the
    registry is returned as it was and no chain is started or closed, while
    the database is left as [UpdateChain] left it. *)
Theorem C9_Configure_disable_and_no_change cll db id cfg :
  (forall c db' dbchain nodes n,
      UpdateChain db id false cfg = (db', (dbchain, None)) ->
      NodesForChain db' id 0 MaxInt16 = (nodes, n, None) ->
      chains cll !! pretty id = Some (Some c) ->
      Configure newChain startErr closeErr cll db id false cfg =
        (Ret (zeroChain, closeErr c),
         {| defaultID := defaultID cll; chains := delete (pretty id) (chains cll);
            opts := opts cll |},
         db', [Closed c])) /\
  (forall enabled,
      (is_Some (chains cll !! pretty id) <-> enabled = true) ->
      exists r,
        Configure newChain startErr closeErr cll db id enabled cfg =
          (Ret r, cll, (UpdateChain db id enabled cfg).1, [])).
Proof.
  split.
  - intros c db' dbchain nodes n HU HN Hc.
    rewrite (Configure_persisted _ _ _ _ _ _ _ _ _ HU HN).
    cbn [Get]. rewrite (getByID_found _ _ _ Hc). reflexivity.
  - intros enabled. apply Configure_no_change.
Qed.

(** C3 (what the code does where the claim fails): when the chain is not
    registered, enabling is asked and [newChain] fails with an error whose
    cause is [ErrNoPrimaryNode], [Configure] logs the warning and then goes
    on as after a successful construction: it calls [Start] on whatever
    pointer the constructor returned (a nil pointer makes the call panic),
    returns the error of [Start] if there is one, and otherwise inserts the
    pointer into the registry.  The candidate is not skipped. *)
Theorem C3_Configure_no_primary_node_goes_on cll db id cfg db' dbchain nodes n p e :
  UpdateChain db id true cfg = (db', (dbchain, None)) ->
  NodesForChain db' id 0 MaxInt16 = (nodes, n, None) ->
  chains cll !! pretty id = None ->
  newChain {| ID := ID dbchain; Cfg := Cfg dbchain; Nodes := nodes;
              Enabled := Enabled dbchain |} (opts cll) = (p, Some e) ->
  Cause e = ErrNoPrimaryNode ->
  let warned := Warned ("EVM: No primary node found for chain " +:+ pretty id +:+
                        "; this chain will be ignored") in
  Configure newChain startErr closeErr cll db id true cfg =
    match p with
    | None => (Panic "Start on a nil chain", cll, db', [warned])
    | Some c =>
        match startErr c with
        | Some e' => (Ret (zeroChain, Some e'), cll, db', [warned; Started c])
        | None =>
            (Ret ({| ID := ID dbchain; Cfg := Cfg dbchain; Nodes := nodes;
                     Enabled := Enabled dbchain |}, None),
             {| defaultID := defaultID cll;
                chains := <[pretty id := Some c]> (chains cll);
                opts := opts cll |},
             db', [warned; Started c])
        end
    end.
Proof.
  intros HU HN Habs Hnc Hcause warned.
  rewrite (Configure_persisted _ _ _ _ _ _ _ _ _ HU HN).
  cbn [Get]. rewrite (getByID_absent _ _ Habs). cbn.
  rewrite Hnc. cbn [causeIsNoPrimaryNode]. rewrite Hcause.
  destruct p as [c|]; [|reflexivity]. by destruct (startErr c).
Qed.

(** The loop of [NewChainSet], for comparison: there a chain whose
    construction fails for want of a primary node is passed over with the
    same warning, and the loop goes on with the next chain. *)
Lemma loadChains_no_primary_node_skipped o d rest cll err p e :
  newChain d o = (p, Some e) ->
  Cause e = ErrNoPrimaryNode ->
  loadChains newChain o (d :: rest) cll err =
    let '(r, e', evs) := loadChains newChain o rest cll err in
    (r, e',
     Informed ("EVM: Loading chain " +:+ pretty (ID d)) ::
     Warned ("EVM: No primary node found for chain " +:+ pretty (ID d) +:+
             "; this chain will be ignored") :: evs).
Proof.
  intros Hnc Hcause. cbn [loadChains]. rewrite Hnc.
  cbn [causeIsNoPrimaryNode]. by rewrite Hcause.
Qed.

End ChainSet.

(** *** On the sample database *)

Lemma sample_newChain_sound : evm.newChain_sound sample.newChain.
Proof.
  intros d o p. unfold sample.newChain.
  destruct (existsb _ _); [|discriminate].
  intros [= <-]. by eexists.
Qed.

Lemma sample_NewChainSet :
  evm.NewChainSet sample.newChain sample.chainSetOpts [sample.dbchain42; sample.dbchain43]
  = (Some sample.loaded, None,
     [evm.Informed "Creating ChainSet";
      evm.Informed "EVM: Loading chain 42";
      evm.Informed "EVM: Loading chain 43";
      evm.Warned "EVM: No primary node found for chain 43; this chain will be ignored"]).
Proof. vm_compute. reflexivity. Qed.

Lemma C7_Get_after_load_witness :
  (exists c, evm.Get sample.loaded (Some 42) = (Some c, None) /\
             pretty (evm.id c) = pretty 42) /\
  evm.Get sample.loaded (Some 43) = (None, Some (evm.ErrNotFound 43)).
Proof.
  pose proof (C7_Get_after_load sample.newChain sample_newChain_sound _ _ _ _ _
                sample_NewChainSet) as (Hreg & _ & Habs & _).
  split.
  - apply Hreg. exists (Some sample.chain42). reflexivity.
  - apply Habs. reflexivity.
Defined.

(** C9 as the spec words it does not hold: [Configure] with
    [enabled = false] on the registered chain 42 leaves it registered and
    closes nothing when a database call fails.  With the node table out of
    reach the row of chain 42 is already stored as disabled when
    [NodesForChain] fails, and [Configure] returns that error with the
    registry as it was, so [Get] still returns the chain; with the row of
    chain 42 missing, [UpdateChain] fails and the outcome is the same. *)
Lemma C9_disable_with_database_error_keeps_chain :
  evm.Configure sample.newChain sample.noErr sample.noErr sample.loaded
    sample.databaseNodesDown 42 false 5 =
  (evm.Ret (evm.zeroChain, Some (evm.ErrNew "pq: relation nodes is not reachable")),
   sample.loaded,
   {| sample.rows :=
        <[42 := {| evm.ID := 42; evm.Cfg := 5;
                   evm.Nodes := [sample.primaryNode; sample.sendOnlyNode];
                   evm.Enabled := false |}]> sample.database |},
   []) /\
  evm.Configure sample.newChain sample.noErr sample.noErr sample.loaded
    sample.databaseWithout42 42 false 5 =
  (evm.Ret (evm.zeroChain, Some (evm.ErrNew "sql: no rows in result set")),
   sample.loaded, sample.databaseWithout42, []) /\
  evm.Get sample.loaded (Some 42) = (Some sample.chain42, None) /\
  evm.ChainCount sample.loaded = 1%nat.
Proof. split_and!; vm_compute; reflexivity. Qed.

Lemma C9_Configure_disable_and_no_change_witness :
  evm.Configure sample.newChain sample.noErr sample.noErr sample.loaded
    sample.database 42 false 5 =
  (evm.Ret (evm.zeroChain, None),
   {| evm.defaultID := Some 42;
      evm.chains := delete (pretty 42) (evm.chains sample.loaded);
      evm.opts := sample.chainSetOpts |},
   <[42 := {| evm.ID := 42; evm.Cfg := 5;
              evm.Nodes := [sample.primaryNode; sample.sendOnlyNode];
              evm.Enabled := false |}]> sample.database,
   [evm.Closed sample.chain42]).
Proof.
  apply (proj1 (C9_Configure_disable_and_no_change sample.newChain sample.noErr
                  sample.noErr sample.loaded sample.database 42 5)
           sample.chain42 _
           {| evm.ID := 42; evm.Cfg := 5; evm.Nodes := []; evm.Enabled := false |}
           [sample.primaryNode; sample.sendOnlyNode] 2);
    reflexivity.
Defined.

Lemma C3_Configure_no_primary_node_goes_on_witness :
  evm.Configure sample.newChain sample.noErr sample.noErr sample.loaded
    sample.database 43 true 5 =
  (evm.Panic "Start on a nil chain", sample.loaded,
   <[43 := {| evm.ID := 43; evm.Cfg := 5; evm.Nodes := [sample.sendOnlyNode];
              evm.Enabled := true |}]> sample.database,
   [evm.Warned "EVM: No primary node found for chain 43; this chain will be ignored"]).
Proof.
  apply (C3_Configure_no_primary_node_goes_on sample.newChain sample.noErr sample.noErr
           sample.loaded sample.database 43 5 _
           {| evm.ID := 43; evm.Cfg := 5; evm.Nodes := []; evm.Enabled := true |}
           [sample.sendOnlyNode] 1 None
           (evm.ErrWrap evm.ErrNoPrimaryNode "failed to instantiate eth client"));
    reflexivity.
Defined.

(** * Further properties *)

Set Warnings "-clear-no-such-hyp".

(** ** The chain set: reconfiguration *)

Section Reconfiguration.
Import evm.

Context {ChainCfg : Type} `{!Inhabited ChainCfg} {DB : Type} `{!ORM ChainCfg DB}.
Variable newChain : DbChain ChainCfg -> ChainSetOpts -> option chain * option error.
Variable startErr closeErr : chain -> option error.

Lemma pretty_Z_ne (i j : Z) : i <> j -> pretty i <> pretty j.
Proof. intros Hne Heq. by apply Hne, (inj pretty). Qed.

Lemma getByID_insert_ne cll i j p :
  j <> i ->
  getByID {| defaultID := defaultID cll; chains := <[pretty i := p]> (chains cll);
             opts := opts cll |} j = getByID cll j.
Proof.
  intros Hne. unfold getByID. cbn [chains].
  by rewrite lookup_insert_ne by (by apply pretty_Z_ne).
Qed.

Lemma getByID_delete_ne cll i j :
  j <> i ->
  getByID {| defaultID := defaultID cll; chains := delete (pretty i) (chains cll);
             opts := opts cll |} j = getByID cll j.
Proof.
  intros Hne. unfold getByID. cbn [chains].
  by rewrite lookup_delete_ne by (by apply pretty_Z_ne).
Qed.

(** The two constructors of a chain set differ in the options they store:
    [NewChainSet], which makes the registry, stores options that pass
    [checkOpts]; the chain set [LoadChainSet] returns with the EVM disabled,
    whose registry field is left out of the literal, stores none. *)
Lemma loadChains_opts o dbchains : forall cll err cll' err' evs,
  loadChains newChain o dbchains cll err = (Some cll', err', evs) ->
  opts cll' = opts cll.
Proof.
  induction dbchains as [|d rest IH]; intros cll err cll' err' evs Hl.
  - cbn in Hl. by simplify_eq.
  - cbn [loadChains] in Hl. destruct (newChain d o) as [p [e2|]].
    + destruct (causeIsNoPrimaryNode (Some e2)).
      * destruct (loadChains newChain o rest cll err) as [[r e] evs0] eqn:Hr.
        simplify_eq. by eapply IH.
      * destruct (loadChains newChain o rest cll (Combine err (Some e2)))
          as [[r e] evs0] eqn:Hr.
        simplify_eq. by eapply IH.
    + destruct (chains cll !! pretty (ID d)); [done|].
      destruct (loadChains newChain o rest _ err) as [[r e] evs0] eqn:Hr.
      simplify_eq. by apply IH in Hr.
Qed.

Lemma NewChainSet_opts_checked o dbchains cll err evs :
  NewChainSet newChain o dbchains = (Some cll, err, evs) ->
  checkOpts (opts cll) = None.
Proof.
  unfold NewChainSet. destruct (checkOpts o) eqn:Hchk; [done|].
  destruct (loadChains newChain o dbchains _ None) as [[r e] evs0] eqn:Hl.
  intros ?. simplify_eq. apply loadChains_opts in Hl. by rewrite Hl.
Qed.

Lemma LoadChainSet_disabled_opts_unchecked o (db : DB) c cll err evs :
  Config o = Some c -> EVMDisabled c = true ->
  LoadChainSet newChain o db = (Some cll, err, evs) ->
  checkOpts (opts cll) <> None.
Proof.
  intros Hc Hdis. unfold LoadChainSet. destruct (checkOpts o); [done|].
  rewrite Hc. cbn. rewrite Hdis. intros ?. by simplify_eq.
Qed.

(** X1: enabling a chain that is not registered, in a chain set that
    [NewChainSet] built (its stored options pass [checkOpts], so its
    registry was made), when the database calls succeed, the constructor
    returns a chain without error and the chain starts: the chain is
    started once and registered, [Get] of its identifier returns it, the
    registry has one chain more, and [Get] of every other identifier
    answers as before.  The chain set returned with the EVM disabled is
    left out: its registry is the nil map, to which line 133 cannot
    write. *)
Theorem Configure_enable_then_Get cll db id cfg db' dbchain nodes n c :
  checkOpts (opts cll) = None ->
  UpdateChain db id true cfg = (db', (dbchain, None)) ->
  NodesForChain db' id 0 MaxInt16 = (nodes, n, None) ->
  chains cll !! pretty id = None ->
  newChain {| ID := ID dbchain; Cfg := Cfg dbchain; Nodes := nodes;
              Enabled := Enabled dbchain |} (opts cll) = (Some c, None) ->
  startErr c = None ->
  exists cll',
    Configure newChain startErr closeErr cll db id true cfg =
      (Ret ({| ID := ID dbchain; Cfg := Cfg dbchain; Nodes := nodes;
               Enabled := Enabled dbchain |}, None), cll', db', [Started c]) /\
    Get cll' (Some id) = (Some c, None) /\
    ChainCount cll' = S (ChainCount cll) /\
    checkOpts (opts cll') = None /\
    (forall j, j <> id -> Get cll' (Some j) = Get cll (Some j)).
Proof.
  intros Hmade HU HN Habs Hnc Hstart.
  eexists. split; [|split; [|split; [|split]]].
  - rewrite (Configure_persisted _ _ _ _ _ _ _ _ _ _ _ _ HU HN).
    cbn [Get]. rewrite (getByID_absent _ _ Habs). cbn.
    rewrite Hnc. cbn. rewrite Hstart. reflexivity.
  - cbn [Get]. apply getByID_found. cbn [chains]. apply lookup_insert_eq.
  - unfold ChainCount. cbn [chains]. by apply map_size_insert_None.
  - exact Hmade.
  - intros j Hne. cbn [Get]. by apply getByID_insert_ne.
Qed.

(** Disabling a registered chain removes it, whatever [Close] returns. *)
Lemma Configure_disable_removes cll db id cfg db' dbchain nodes n c :
  UpdateChain db id false cfg = (db', (dbchain, None)) ->
  NodesForChain db' id 0 MaxInt16 = (nodes, n, None) ->
  chains cll !! pretty id = Some (Some c) ->
  exists cll',
    Configure newChain startErr closeErr cll db id false cfg =
      (Ret (zeroChain, closeErr c), cll', db', [Closed c]) /\
    Get cll' (Some id) = (None, Some (ErrNotFound id)) /\
    S (ChainCount cll') = ChainCount cll /\
    (forall j, j <> id -> Get cll' (Some j) = Get cll (Some j)).
Proof.
  intros HU HN Hc.
  eexists. split; [|split; [|split]].
  - rewrite (Configure_persisted _ _ _ _ _ _ _ _ _ _ _ _ HU HN).
    cbn [Get]. rewrite (getByID_found _ _ _ Hc). reflexivity.
  - cbn [Get]. apply getByID_absent. cbn [chains]. apply lookup_delete_eq.
  - unfold ChainCount. cbn [chains].
    rewrite map_size_delete_Some by (by eexists).
    assert (size (chains cll) <> 0%nat); [|lia].
    apply map_size_non_empty_iff. intros Hem. by rewrite Hem, lookup_empty in Hc.
  - intros j Hne. cbn [Get]. by apply getByID_delete_ne.
Qed.

(** X2: disabling a registered chain, when the database calls succeed:
    whatever [Close] returns (its error is what [Configure] returns), the
    chain is gone from the registry, [Get] of its identifier fails with
    "chain not found", the registry has one chain less, and [Get] of every
    other identifier answers as before. *)
Theorem Configure_disable_then_Get cll db id cfg db' dbchain nodes n c :
  UpdateChain db id false cfg = (db', (dbchain, None)) ->
  NodesForChain db' id 0 MaxInt16 = (nodes, n, None) ->
  chains cll !! pretty id = Some (Some c) ->
  exists cll',
    Configure newChain startErr closeErr cll db id false cfg =
      (Ret (zeroChain, closeErr c), cll', db', [Closed c]) /\
    Get cll' (Some id) = (None, Some (ErrNotFound id)) /\
    S (ChainCount cll') = ChainCount cll /\
    (forall j, j <> id -> Get cll' (Some j) = Get cll (Some j)).
Proof. apply Configure_disable_removes. Qed.

(** X3: when [UpdateChain] fails, or succeeds and [NodesForChain] fails,
    [Configure] returns that error with the zero chain: the registry is as
    it was and no chain is constructed, started or closed. *)
Theorem Configure_database_error cll db id enabled cfg :
  (forall db' dbchain e,
      UpdateChain db id enabled cfg = (db', (dbchain, Some e)) ->
      Configure newChain startErr closeErr cll db id enabled cfg =
        (Ret (zeroChain, Some e), cll, db', [])) /\
  (forall db' dbchain nodes n e,
      UpdateChain db id enabled cfg = (db', (dbchain, None)) ->
      NodesForChain db' id 0 MaxInt16 = (nodes, n, Some e) ->
      Configure newChain startErr closeErr cll db id enabled cfg =
        (Ret (zeroChain, Some e), cll, db', [])).
Proof.
  split.
  - intros db' dbchain e HU. unfold Configure. by rewrite HU.
  - intros db' dbchain nodes n e HU HN. unfold Configure. by rewrite HU, HN.
Qed.

(** X4: enabling a chain that is not registered, when the database calls
    succeed.  If the constructor fails with an error whose cause is not
    [ErrNoPrimaryNode], that error is returned and nothing is started.  If
    the constructor succeeds and [Start] fails, the error of [Start] is
    returned: the chain has been started, and it is not registered. *)
Theorem Configure_enable_failure cll db id cfg db' dbchain nodes n :
  UpdateChain db id true cfg = (db', (dbchain, None)) ->
  NodesForChain db' id 0 MaxInt16 = (nodes, n, None) ->
  chains cll !! pretty id = None ->
  (forall p e,
      newChain {| ID := ID dbchain; Cfg := Cfg dbchain; Nodes := nodes;
                  Enabled := Enabled dbchain |} (opts cll) = (p, Some e) ->
      Cause e <> ErrNoPrimaryNode ->
      Configure newChain startErr closeErr cll db id true cfg =
        (Ret (zeroChain, Some e), cll, db', [])) /\
  (forall c e,
      newChain {| ID := ID dbchain; Cfg := Cfg dbchain; Nodes := nodes;
                  Enabled := Enabled dbchain |} (opts cll) = (Some c, None) ->
      startErr c = Some e ->
      Configure newChain startErr closeErr cll db id true cfg =
        (Ret (zeroChain, Some e), cll, db', [Started c])).
Proof.
  intros HU HN Habs. split.
  - intros p e Hnc Hcause.
    rewrite (Configure_persisted _ _ _ _ _ _ _ _ _ _ _ _ HU HN).
    cbn [Get]. rewrite (getByID_absent _ _ Habs). cbn.
    rewrite Hnc. cbn [causeIsNoPrimaryNode].
    by destruct (Cause e).
  - intros c e Hnc Hstart.
    rewrite (Configure_persisted _ _ _ _ _ _ _ _ _ _ _ _ HU HN).
    cbn [Get]. rewrite (getByID_absent _ _ Habs). cbn.
    rewrite Hnc. cbn. by rewrite Hstart.
Qed.

(** What [Configure] never touches. *)
Lemma Configure_untouched cll db id enabled cfg r cll' db' evs :
  Configure newChain startErr closeErr cll db id enabled cfg = (r, cll', db', evs) ->
  defaultID cll' = defaultID cll /\
  opts cll' = opts cll /\
  (forall k, k <> pretty id -> chains cll' !! k = chains cll !! k) /\
  db' = (UpdateChain db id enabled cfg).1.
Proof.
  unfold Configure, Get, getByID.
  repeat case_match; intros; simplify_eq; cbn [defaultID opts chains fst];
    repeat split; try done; intros k Hk.
  all: first [ by rewrite lookup_delete_ne | by rewrite lookup_insert_ne ].
Qed.

(** X5: whatever [Configure] does, and also when it panics, it leaves the
    default identifier and the options of the chain set alone, it leaves
    every registry entry under another key alone, and the database is as
    [UpdateChain] left it. *)
Theorem Configure_frame cll db id enabled cfg r cll' db' evs :
  Configure newChain startErr closeErr cll db id enabled cfg = (r, cll', db', evs) ->
  defaultID cll' = defaultID cll /\
  opts cll' = opts cll /\
  (forall k, k <> pretty id -> chains cll' !! k = chains cll !! k) /\
  db' = (UpdateChain db id enabled cfg).1.
Proof. apply Configure_untouched. Qed.

(** X6: [Configure] keeps the registry keyed by the string form of the
    identifier of the chain stored there, whenever it returns, provided the
    constructor gives a chain of the identifier it was asked for, gives no
    chain together with an error, and the database returns the row of the
    identifier it was asked to update. *)
Theorem Configure_keeps_registry_keyed cll db id enabled cfg r cll' db' evs :
  newChain_sound newChain ->
  (forall d o p e, newChain d o = (p, Some e) -> p = None) ->
  (forall db1 d, UpdateChain db id enabled cfg = (db1, (d, None)) -> ID d = id) ->
  registered_ok cll ->
  Configure newChain startErr closeErr cll db id enabled cfg = (Ret r, cll', db', evs) ->
  registered_ok cll'.
Proof.
  intros Hsound Hnil Hrow Hok. unfold Configure, Get, getByID.
  destruct (UpdateChain db id enabled cfg) as [db1 [d [e|]]] eqn:HU.
  { by intros [= _ <- _ _]. }
  specialize (Hrow _ _ eq_refl).
  destruct (NodesForChain db1 id 0 MaxInt16) as [[nodes n] [e|]].
  { by intros [= _ <- _ _]. }
  destruct (chains cll !! pretty id) as [p|] eqn:Hp; cbn.
  - destruct enabled; cbn.
    + by intros [= _ <- _ _].
    + destruct p as [c|]; [|discriminate]. intros [= _ <- _ _].
      intros k q. cbn [chains]. intros [_ Hk]%lookup_delete_Some. by apply Hok.
  - destruct enabled; cbn; [|by intros [= _ <- _ _]].
    destruct (newChain _ _) as [q [e|]] eqn:Hnc.
    + rewrite (Hnil _ _ _ _ Hnc).
      destruct (causeIsNoPrimaryNode (Some e)); [discriminate|].
      by intros [= _ <- _ _].
    + destruct (Hsound _ _ _ Hnc) as (c & -> & Hid). cbn in Hid.
      cbn [causeIsNoPrimaryNode]. destruct (startErr c).
      * by intros [= _ <- _ _].
      * intros [= _ <- _ _]. intros k q. cbn [chains].
        intros [[<- <-]|[_ Hk]]%lookup_insert_Some; [|by apply Hok].
        exists c. split; [done|]. by rewrite Hid, Hrow.
Qed.

(** X7: after the default chain has been disabled, [Default] fails: with
    [ErrNoChains] when it was the only chain, and otherwise with "chain not
    found" for the default identifier, which the chain set still carries. *)
Theorem Configure_disable_default cll db id cfg db' dbchain nodes n c :
  UpdateChain db id false cfg = (db', (dbchain, None)) ->
  NodesForChain db' id 0 MaxInt16 = (nodes, n, None) ->
  chains cll !! pretty id = Some (Some c) ->
  defaultID cll = Some id ->
  exists r cll' evs,
    Configure newChain startErr closeErr cll db id false cfg = (Ret r, cll', db', evs) /\
    Default cll' =
      (None, Some (if decide (ChainCount cll = 1%nat) then ErrNoChains
                   else ErrNotFound id)).
Proof.
  intros HU HN Hc Hdef.
  destruct (Configure_disable_removes cll db id cfg db' dbchain nodes n c HU HN Hc)
    as (cll' & HC & Hget & Hcount & _).
  exists (zeroChain, closeErr c), cll', [Closed c]. split; [exact HC|].
  pose proof (Configure_untouched _ _ _ _ _ _ _ _ _ HC) as (Hd & _).
  unfold Default, ChainCount in *. rewrite Hd, Hdef.
  destruct (decide (size (chains cll) = 1%nat)) as [H1|H1].
  - replace (size (chains cll')) with 0%nat by lia. reflexivity.
  - destruct (size (chains cll') =? 0)%nat eqn:E; [apply Nat.eqb_eq in E; lia|].
    exact Hget.
Qed.

End Reconfiguration.

(** ** The chain set: loading *)

Section Loading.
Import evm.

Context {ChainCfg : Type} `{!Inhabited ChainCfg} {DB : Type} `{!ORM ChainCfg DB}.
Variable newChain : DbChain ChainCfg -> ChainSetOpts -> option chain * option error.

Lemma errorsIn_Combine a b : errorsIn (Combine a b) = errorsIn a ++ errorsIn b.
Proof. destruct a, b; cbn; by rewrite ?app_nil_r. Qed.

Lemma Combine_None a b : Combine a b = None <-> a = None /\ b = None.
Proof. destruct a, b; cbn; split; try done; intros [? ?]; done. Qed.

(** The loop of [NewChainSet], from any chain set and aggregate error. *)
Lemma loadChains_spec o dbchains : forall cll err,
  match loadChains newChain o dbchains cll err with
  | (Some cll', err', _) =>
      NoDup (ID <$> List.filter (constructible newChain o) dbchains) /\
      (forall d, d ∈ List.filter (constructible newChain o) dbchains ->
                 chains cll !! pretty (ID d) = None) /\
      dom (chains cll') =
        dom (chains cll) ∪
        list_to_set ((fun d => pretty (ID d)) <$> List.filter (constructible newChain o) dbchains) /\
      size (chains cll') =
        (size (chains cll) + length (List.filter (constructible newChain o) dbchains))%nat /\
      errorsIn err' = errorsIn err ++ (dbchains ≫= fatalErrors newChain o) /\
      (err' = None <-> err = None /\ forallb (skippable newChain o) dbchains = true) /\
      defaultID cll' = defaultID cll
  | (None, err', _) =>
      (exists cid, err' = Some (ErrDuplicate cid)) /\
      ~ (NoDup (ID <$> List.filter (constructible newChain o) dbchains) /\
         forall d, d ∈ List.filter (constructible newChain o) dbchains ->
                   chains cll !! pretty (ID d) = None)
  end.
Proof.
  induction dbchains as [|d rest IH]; intros cll err.
  - cbn. split; [constructor|]. split; [by intros d ?%elem_of_nil|].
    split; [set_solver|]. split; [lia|]. split; [by rewrite app_nil_r|].
    split; [|done]. split; [by intros ->|by intros [-> _]].
  - cbn [loadChains List.filter forallb]. rewrite bind_cons.
    destruct (newChain d o) as [chain [e2|]] eqn:Hnc.
    + assert (constructible newChain o d = false) as ->
        by (unfold constructible; by rewrite Hnc).
      assert (skippable newChain o d = causeIsNoPrimaryNode (Some e2)) as ->
        by (unfold skippable; by rewrite Hnc).
      assert (fatalErrors newChain o d =
              if causeIsNoPrimaryNode (Some e2) then [] else errorsOf e2) as ->
        by (unfold fatalErrors; by rewrite Hnc).
      destruct (causeIsNoPrimaryNode (Some e2)) eqn:Hc.
      * specialize (IH cll err).
        destruct (loadChains newChain o rest cll err) as [[[cll'|] err'] evs]; [|done].
        cbn [andb app]. exact IH.
      * specialize (IH cll (Combine err (Some e2))).
        destruct (loadChains newChain o rest cll (Combine err (Some e2)))
          as [[[cll'|] err'] evs]; [|done].
        destruct IH as (? & ? & ? & ? & Herrs & Hnil & ?). cbn [andb].
        split_and!; try done.
        -- by rewrite Herrs, errorsIn_Combine, <-app_assoc.
        -- split.
           ++ intros Hn. apply Hnil in Hn as [[_ [=]]%Combine_None _].
           ++ intros [_ [=]].
    + assert (constructible newChain o d = true) as ->
        by (unfold constructible; by rewrite Hnc).
      assert (skippable newChain o d = true) as ->
        by (unfold skippable; by rewrite Hnc).
      assert (fatalErrors newChain o d = []) as ->
        by (unfold fatalErrors; by rewrite Hnc).
      destruct (chains cll !! pretty (ID d)) eqn:Hdup.
      { split; [by eexists|]. intros [_ Hfresh].
        rewrite (Hfresh d) in Hdup; [done|]. apply elem_of_cons. by left. }
      specialize (IH {| defaultID := defaultID cll;
                        chains := <[pretty (ID d) := chain]> (chains cll);
                        opts := opts cll |} err).
      destruct (loadChains newChain o rest _ err) as [[[cll'|] err'] evs].
      * destruct IH as (Hnd & Hfresh & Hdom & Hsize & Herrs & Hnil & Hdef).
        cbn [chains defaultID] in *.
        assert (forall d', d' ∈ List.filter (constructible newChain o) rest ->
                           ID d' <> ID d /\ chains cll !! pretty (ID d') = None) as Hrest.
        { intros d' Hd'. specialize (Hfresh d' Hd').
          apply lookup_insert_None in Hfresh as [Hn Hne]. split; [congruence|done]. }
        split.
        { rewrite fmap_cons. constructor; [|done].
          intros (d' & Heq & Hd')%list_elem_of_fmap. by destruct (Hrest d' Hd'). }
        split.
        { intros d' [->|Hd']%elem_of_cons; [done|]. by apply Hrest. }
        split.
        { rewrite Hdom, dom_insert_L, fmap_cons. cbn [list_to_set]. set_solver. }
        split.
        { rewrite Hsize, map_size_insert_None by done. cbn [length]. lia. }
        done.
      * destruct IH as (Hdupl & Hno). split; [done|].
        intros [Hnd Hfresh]. apply Hno. rewrite fmap_cons in Hnd.
        apply NoDup_cons in Hnd as [Hd Hnd]. split; [done|].
        intros d' Hd'. cbn [chains]. apply lookup_insert_None. split.
        -- apply Hfresh, elem_of_cons. by right.
        -- intros Heq. apply Hd, list_elem_of_fmap. exists d'.
           split; [|done]. symmetry. by apply (inj pretty).
Qed.

(** X8: what [NewChainSet] returns when it returns a chain set.  The
    database chains that could be constructed have pairwise different
    identifiers; the keys of the registry are exactly their identifiers in
    string form, and there are as many chains as there were constructible
    database chains; the default identifier is that of the configuration;
    the error returned beside the set stands for exactly the construction
    errors that are not [ErrNoPrimaryNode], in the order of the database
    chains, and is nil exactly when there was none. *)
Theorem NewChainSet_loaded o dbchains cll err evs :
  NewChainSet newChain o dbchains = (Some cll, err, evs) ->
  NoDup (ID <$> List.filter (constructible newChain o) dbchains) /\
  dom (chains cll) =
    list_to_set ((fun d => pretty (ID d)) <$> List.filter (constructible newChain o) dbchains) /\
  ChainCount cll = length (List.filter (constructible newChain o) dbchains) /\
  defaultID cll = from_option DefaultChainID None (Config o) /\
  errorsIn err = dbchains ≫= fatalErrors newChain o /\
  (err = None <-> forallb (skippable newChain o) dbchains = true).
Proof.
  unfold NewChainSet. destruct (checkOpts o); [discriminate|].
  pose proof (loadChains_spec o dbchains
                {| defaultID := from_option DefaultChainID None (Config o);
                   chains := ∅; opts := o |} None) as Hspec.
  destruct (loadChains _ _ _ _ _) as [[r e] evs'].
  intros [= -> -> _].
  destruct Hspec as (Hnd & _ & Hdom & Hsize & Herrs & Hnil & Hdef).
  cbn [chains defaultID] in *. rewrite dom_empty_L, union_empty_l_L in Hdom.
  rewrite map_size_empty in Hsize.
  split_and!; try done.
  split; [intros Hn; by apply Hnil in Hn as [_ ?]|]. intros Hs. by apply Hnil.
Qed.

(** X9: [NewChainSet], once its options are accepted, returns a chain set
    exactly when no two constructible database chains have the same
    identifier; when two have, it returns no chain set and only the error
    "duplicate chain with ID ...", whatever other errors it had collected. *)
Theorem NewChainSet_duplicates o dbchains :
  checkOpts o = None ->
  ((exists cll err evs, NewChainSet newChain o dbchains = (Some cll, err, evs)) <->
   NoDup (ID <$> List.filter (constructible newChain o) dbchains)) /\
  (~ NoDup (ID <$> List.filter (constructible newChain o) dbchains) ->
   exists cid evs, NewChainSet newChain o dbchains = (None, Some (ErrDuplicate cid), evs)).
Proof.
  intros Hopts. unfold NewChainSet. rewrite Hopts.
  pose proof (loadChains_spec o dbchains
                {| defaultID := from_option DefaultChainID None (Config o);
                   chains := ∅; opts := o |} None) as Hspec.
  destruct (loadChains _ _ _ _ _) as [[[cll|] e] evs'].
  - destruct Hspec as (Hnd & _). split; [|done].
    split; [done|]. intros _. by eexists _, _, _.
  - destruct Hspec as ([cid ->] & Hno). split.
    + split; [by intros (? & ? & ? & [=])|].
      intros Hnd. destruct Hno. split; [done|]. intros d _. apply lookup_empty.
    + intros _. by eexists _, _.
Qed.

(** X10: [LoadChainSet] at its edges.  A nil logger is refused before
    anything else, then a nil configuration.  With the EVM disabled the
    database is not asked: the chain set is empty whatever the database
    holds, so [Default] fails with [ErrNoChains] and [Get] finds no
    identifier.  An error of the database is returned wrapped, its cause
    kept, with no chain set. *)
Theorem LoadChainSet_edges o (db : DB) :
  (Logger o = None ->
   LoadChainSet newChain o db = (None, Some (ErrNew "logger must be non-nil"), [])) /\
  (Logger o <> None -> Config o = None ->
   LoadChainSet newChain o db = (None, Some (ErrNew "config must be non-nil"), [])) /\
  (forall c, Logger o <> None -> Config o = Some c -> EVMDisabled c = true ->
     exists cll evs,
       (forall db', LoadChainSet newChain o db' = (Some cll, None, evs)) /\
       ChainCount cll = 0%nat /\
       Default cll = (None, Some ErrNoChains) /\
       forall i, Get cll (Some i) = (None, Some (ErrNotFound i))) /\
  (forall c dbchains e, Logger o <> None -> Config o = Some c -> EVMDisabled c = false ->
     EnabledChainsWithNodes db = (dbchains, Some e) ->
     exists e', LoadChainSet newChain o db = (None, Some e', []) /\ Cause e' = Cause e) /\
  (forall c dbchains, Logger o <> None -> Config o = Some c -> EVMDisabled c = false ->
     EnabledChainsWithNodes db = (dbchains, None) ->
     LoadChainSet newChain o db = NewChainSet newChain o dbchains).
Proof.
  unfold LoadChainSet, checkOpts. split_and!.
  - by intros ->.
  - intros Hl ->. by destruct (Logger o).
  - intros c Hl -> Hdis. destruct (Logger o); [|done]. cbn. rewrite Hdis.
    eexists _, _. split; [done|]. split_and!; [done|done|].
    intros i. cbn. unfold getByID. cbn. by rewrite lookup_empty.
  - intros c dbchains e Hl -> Hen HE. destruct (Logger o); [|done]. cbn.
    rewrite Hen, HE. by eexists.
  - intros c dbchains Hl -> Hen HE. destruct (Logger o); [|done]. cbn.
    by rewrite Hen, HE.
Qed.

End Loading.

(** ** The chain set: operations on every chain *)

Section Aggregates.
Import evm.

(** The shared loop on a slice without nil chain. *)
Lemma combineAll_runs op ev (l : list chain) :
  exists e,
    combineAll op ev (Some <$> l) None = (Ret e, l ≫= ev) /\
    errorsIn e = l ≫= (fun c => errorsIn (op c)) /\
    (e = None <-> Forall (fun c => op c = None) l).
Proof.
  assert (forall err, exists e,
             combineAll op ev (Some <$> l) err = (Ret e, l ≫= ev) /\
             errorsIn e = errorsIn err ++ (l ≫= (fun c => errorsIn (op c))) /\
             (e = None <-> err = None /\ Forall (fun c => op c = None) l)) as Hgen.
  { induction l as [|c l IH]; intros err.
    - exists err. cbn. rewrite app_nil_r. split_and!; try done.
      split; [by intros ->|by intros [-> _]].
    - destruct (IH (Combine err (op c))) as (e & Hrun & Herrs & Hnil).
      exists e. rewrite fmap_cons. cbn [combineAll]. rewrite Hrun, !bind_cons.
      split_and!; [done| |].
      + by rewrite Herrs, errorsIn_Combine, <-app_assoc.
      + rewrite Hnil, Combine_None, Forall_cons. tauto. }
  destruct (Hgen None) as (e & Hrun & Herrs & Hnil).
  exists e. split_and!; [done|done|]. rewrite Hnil. tauto.
Qed.


(** A nil chain anywhere in the slice makes the loop panic. *)
Lemma combineAll_nil_panics op ev cs : forall err,
  None ∈ cs -> exists why, (combineAll op ev cs err).1 = Panic why.
Proof.
  induction cs as [|[c|] cs IH]; intros err Hin.
  - by apply elem_of_nil in Hin.
  - apply elem_of_cons in Hin as [[=]|Hin]. cbn [combineAll].
    destruct (IH (Combine err (op c)) Hin) as [why Hwhy].
    destruct (combineAll op ev cs _) as [r evs]. by exists why.
  - by eexists.
Qed.

Lemma all_Some_slice (cs : list (option chain)) :
  (forall p, p ∈ cs -> is_Some p) -> exists l, cs = Some <$> l.
Proof.
  induction cs as [|p cs IH]; intros Hall.
  - by exists [].
  - destruct (Hall p) as [c ->]; [by left|].
    destruct IH as [l ->]; [intros q Hq; apply Hall; by right|].
    by exists (c :: l).
Qed.

Lemma elem_of_Chains cll p :
  p ∈ Chains cll <-> exists k, chains cll !! k = Some p.
Proof.
  unfold Chains. rewrite list_elem_of_fmap. split.
  - intros ([k q] & -> & Hin). exists k. by apply elem_of_map_to_list.
  - intros [k Hk]. exists (k, p). split; [done|]. by apply elem_of_map_to_list.
Qed.

(** X12: [Close] on a chain set whose registry holds no nil chain closes
    every registered chain, and as many chains as are registered, also when
    some fail to close; it returns nil exactly when every chain closed
    without error.  When the registry holds a nil chain, [Close] and
    [Start] panic. *)
Theorem Close_closes_every_chain closeErr startErr cll :
  ((forall k p, chains cll !! k = Some p -> is_Some p) ->
   exists e l,
     Close closeErr cll = (Ret e, Informed "EVM: stopping" :: (Closed <$> l)) /\
     length l = ChainCount cll /\
     (forall c, c ∈ l <-> exists k, chains cll !! k = Some (Some c)) /\
     (e = None <-> forall k c, chains cll !! k = Some (Some c) -> closeErr c = None)) /\
  ((exists k, chains cll !! k = Some None) ->
   (exists why, (Close closeErr cll).1 = Panic why) /\
   (exists why, (Start startErr cll).1 = Panic why)).
Proof.
  split.
  - intros Hall.
    destruct (all_Some_slice (Chains cll)) as [l Hl].
    { intros p [k Hk]%elem_of_Chains. by eapply Hall. }
    destruct (combineAll_runs closeErr (fun c => [Closed c]) l)
      as (e & Hrun & _ & Hnil).
    assert (forall c, c ∈ l <-> exists k, chains cll !! k = Some (Some c)) as Hmem.
    { intros c. rewrite <-elem_of_Chains, Hl, list_elem_of_fmap. split.
      - intros Hc. by exists c.
      - by intros (c' & [= ->] & Hc'). }
    exists e, l. unfold Close. rewrite Hl, Hrun. split_and!.
    + by f_equal.
    + unfold ChainCount. rewrite <-length_map_to_list.
      rewrite <-(length_fmap Some l), <-Hl. unfold Chains. by rewrite length_fmap.
    + done.
    + rewrite Hnil, Forall_forall. split.
      * intros Hc k c Hk. apply Hc, Hmem. by exists k.
      * intros Hc c [k Hk]%Hmem. by eapply Hc.
  - intros [k Hk].
    assert (None ∈ Chains cll) as Hin by (apply elem_of_Chains; by exists k).
    split.
    + destruct (combineAll_nil_panics closeErr (fun c => [Closed c]) _ None Hin) as [why H].
      unfold Close. destruct (combineAll _ _ _ _) as [r evs]. by exists why.
    + destruct (combineAll_nil_panics startErr (fun c => [Started c]) _ None Hin) as [why H].
      unfold Start. destruct (combineAll _ _ _ _) as [r evs]. cbn in H. subst r.
      by exists why.
Qed.

End Aggregates.

(** ** The send-only node: runs of the verification loop *)

Section VerifyRuns.
Import client.

(** X13: [verifyLoop] never changes the expected chain identifier or the
    name of the node, and changes the lifecycle only as other goroutines
    do: with no lifecycle wake-up, the lifecycle is as it was. *)
Theorem verifyLoop_keeps_identity ws : forall s s' lg st,
  verifyLoop s ws = (s', lg, st) ->
  chainID s' = chainID s /\ name s' = name s /\
  ((forall l, Lifecycle l ∉ ws) -> once s' = once s).
Proof.
  induction ws as [|w ws IH]; intros s s' lg st H; cbn [verifyLoop] in H.
  - by injection H as <- _ _.
  - destruct w as [r| |l].
    + destruct (verifyAttempt s r) as [[s1 lg1] c] eqn:E.
      apply verifyAttempt_writes in E.
      assert (chainID s1 = chainID s /\ name s1 = name s /\ once s1 = once s) as (Hc & Hn & Ho).
      { by destruct E as [->|[_ [->| ->]]]. }
      destruct c.
      * destruct (verifyLoop s1 ws) as [[s2 lg2] st2] eqn:E2.
        injection H as <- _ _. apply IH in E2 as (? & ? & Hl).
        split_and!; [congruence|congruence|].
        intros Hno. rewrite Hl, Ho; [done|]. intros l Hin. apply (Hno l). by right.
      * by injection H as <- _ _.
    + by injection H as <- _ _.
    + apply IH in H as (? & ? & _). split_and!; [done|done|].
      intros Hno. destruct (Hno l). by left.
Qed.

(** X14: the loop sets [Alive] only on a matching identity.  If a run
    leaves the node [Alive] and the node was not [Alive] before, then the
    endpoint reported the expected identity in one of the wake-ups, and the
    loop has returned. *)
Theorem verifyLoop_Alive_only_after_match ws : forall s s' lg st,
  verifyLoop s ws = (s', lg, st) ->
  state s' = SendOnlyNodeStateAlive ->
  state s <> SendOnlyNodeStateAlive ->
  After (ChainIDOk (chainID s)) ∈ ws /\ st = Returned.
Proof.
  induction ws as [|w ws IH]; intros s s' lg st H Halive Hnot; cbn [verifyLoop] in H.
  - injection H as <- _ _. done.
  - destruct w as [r| |l].
    + destruct r as [err|id].
      * cbn in H. destruct (verifyLoop s ws) as [[s2 lg2] st2] eqn:E2.
        injection H as <- _ <-.
        destruct (IH _ _ _ _ E2 Halive Hnot). split; [by right|done].
      * destruct (decide (id = chainID s)) as [->|Hne].
        { rewrite verifyAttempt_match in H. split; [by left|].
          destruct (decide (once s = Started)); by injection H as _ _ <-. }
        rewrite (verifyAttempt_mismatch _ _ Hne) in H.
        destruct (decide (once s = Started)).
        -- destruct (verifyLoop _ ws) as [[s2 lg2] st2] eqn:E2.
           injection H as <- _ <-.
           destruct (IH _ _ _ _ E2 Halive) as [Hin ?]; [done|].
           split; [by right|done].
        -- injection H as <- _ _. done.
    + injection H as <- _ _. done.
    + destruct (IH _ _ _ _ H Halive Hnot) as [Hin ?]. split; [by right|done].
Qed.

(** X15: a started node whose loop first sees only failed queries and
    wrong identities, and then the expected identity, ends with [Alive] in
    its state field, its other fields as they were and the loop returned,
    whatever arrives afterwards. *)
Theorem verifyLoop_reaches_Alive pre post : forall s,
  once s = Started ->
  forallb (retry (chainID s)) pre = true ->
  exists lg,
    verifyLoop s (pre ++ After (ChainIDOk (chainID s)) :: post) =
      ({| state := SendOnlyNodeStateAlive;
          chainID := chainID s; name := name s; once := once s |}, lg, Returned).
Proof.
  induction pre as [|w pre IH]; intros s Hs Hpre.
  - cbn [app verifyLoop]. rewrite verifyAttempt_match, decide_True by done.
    by eexists.
  - cbn [forallb] in Hpre. apply andb_true_iff in Hpre as [Hw Hpre].
    destruct w as [[err|id]| |l]; try discriminate; cbn [app verifyLoop].
    + cbn. destruct (IH s Hs Hpre) as [lg ->]. by eexists.
    + cbn in Hw. apply negb_true_iff, Z.eqb_neq in Hw.
      rewrite (verifyAttempt_mismatch _ _ Hw), decide_True by done.
      destruct (IH (setState s SendOnlyNodeStateInvalidChainID) Hs Hpre) as [lg Hrun].
      cbn [chainID name once setState] in Hrun. rewrite Hrun. by eexists.
Qed.

(** X16: a started node whose queries all fail or report a wrong identity
    is never given up: the loop is still waiting, it has logged one line
    per attempt, and the state field holds [InvalidChainID] if a wrong
    identity was reported and what it held before otherwise; the other
    fields are as they were. *)
Theorem verifyLoop_keeps_retrying ws : forall s,
  once s = Started ->
  forallb (retry (chainID s)) ws = true ->
  exists lg,
    verifyLoop s ws =
      ({| state := if existsb (mismatch (chainID s)) ws
                   then SendOnlyNodeStateInvalidChainID else state s;
          chainID := chainID s; name := name s; once := once s |}, lg, Blocked) /\
    length lg = length ws.
Proof.
  induction ws as [|w ws IH]; intros s Hs Hws.
  - exists []. by destruct s.
  - cbn [forallb] in Hws. apply andb_true_iff in Hws as [Hw Hws].
    destruct w as [[err|id]| |l]; try discriminate; cbn [verifyLoop existsb mismatch orb].
    + cbn. destruct (IH s Hs Hws) as (lg & -> & Hlen). eexists. split; [done|].
      cbn. by rewrite Hlen.
    + cbn in Hw. rewrite Hw. cbn [orb].
      apply negb_true_iff, Z.eqb_neq in Hw.
      rewrite (verifyAttempt_mismatch _ _ Hw), decide_True by done.
      destruct (IH (setState s SendOnlyNodeStateInvalidChainID) Hs Hws) as (lg & Hrun & Hlen).
      cbn [state chainID name once setState] in Hrun. rewrite Hrun. eexists. split.
      * by destruct (existsb _ ws).
      * cbn. by rewrite Hlen.
Qed.

End VerifyRuns.

(** ** The listener: decoding and formatting *)

Section Decoding.
Import directrequestocr.

Lemma hexOfByte_decodes (b : byte) : utils.DecodeString (hexOfByte b) = Some [b].
Proof. destruct b; vm_compute; reflexivity. Qed.

Lemma DecodeString_pair hi lo rest b :
  utils.DecodeString [hi; lo] = Some [b] ->
  utils.DecodeString (hi :: lo :: rest) = (b ::.) <$> utils.DecodeString rest.
Proof.
  cbn [utils.DecodeString].
  destruct (utils.fromHexChar hi), (utils.fromHexChar lo); try discriminate.
  destruct (Byte.of_N _); [|discriminate]. intros [= ->].
  by destruct (utils.DecodeString rest).
Qed.

Lemma DecodeString_hex (data : list byte) :
  utils.DecodeString (data ≫= hexOfByte) = Some data.
Proof.
  induction data as [|b data IH]; [done|].
  rewrite bind_cons. change (hexOfByte b ++ data ≫= hexOfByte)
    with (hexDigit (Byte.to_N b / 16) :: hexDigit (Byte.to_N b mod 16) :: data ≫= hexOfByte).
  rewrite (DecodeString_pair _ _ _ b) by apply hexOfByte_decodes.
  by rewrite IH.
Qed.

Lemma length_hex (data : list byte) :
  length (data ≫= hexOfByte) = (2 * length data)%nat.
Proof.
  induction data as [|b data IH]; [done|].
  rewrite bind_cons, length_app, IH. cbn [length hexOfByte]. lia.
Qed.

(** X17: the decoder undoes the formatter.  A non-empty byte string that
    is formatted as the listener formats request identifiers and request
    data ("0x" and two lower-case digits per byte) and put between double
    quotes is decoded by [ExtractRawBytes] to the same bytes.  The empty
    byte string is formatted as "0x", which [ExtractRawBytes] rejects. *)
Theorem ExtractRawBytes_sprintf0x (data : list byte) :
  (data <> [] ->
   ExtractRawBytes (dquote :: sprintf0x data ++ [dquote]) = inl data) /\
  ExtractRawBytes (dquote :: sprintf0x [] ++ [dquote]) = inr (NotEvenHex (bytes "0x")).
Proof.
  split; [|reflexivity]. intros Hne.
  rewrite ExtractRawBytes_quoted. unfold sprintf0x.
  rewrite length_app, length_hex.
  destruct data as [|b data]; [done|]. cbn [length bytes String.list_byte_of_string].
  change (length (bytes "0x")) with 2%nat.
  replace (2 + 2 * S (length data))%nat with (2 * (length data + 2))%nat by lia.
  destruct (2 * (length data + 2) =? 0)%nat eqn:E0; [apply Nat.eqb_eq in E0; lia|].
  destruct (2 * (length data + 2) <? 4)%nat eqn:E4; [apply Nat.ltb_lt in E4; lia|].
  rewrite Nat.mul_comm, Nat.Div0.mod_mul. cbn [Nat.eqb negb orb].
  unfold utils.TryParseHex.
  change (utils.HasHexPrefix (bytes "0x" ++ (b :: data) ≫= hexOfByte)) with true.
  change (drop 2 (bytes "0x" ++ (b :: data) ≫= hexOfByte)) with ((b :: data) ≫= hexOfByte).
  by rewrite DecodeString_hex.
Qed.

Lemma DecodeString_length : forall n s b,
  (length s <= n)%nat -> utils.DecodeString s = Some b -> length s = (2 * length b)%nat.
Proof.
  induction n as [|n IH]; intros s b Hlen.
  - destruct s; [|cbn in Hlen; lia]. by intros [= <-].
  - destruct s as [|hi [|lo rest]]; [by intros [= <-]|discriminate|].
    cbn [utils.DecodeString].
    destruct (utils.fromHexChar hi), (utils.fromHexChar lo); try discriminate.
    destruct (utils.DecodeString rest) as [bs|] eqn:Hrest; [|discriminate].
    destruct (Byte.of_N _); [|discriminate]. intros [= <-].
    cbn [length] in *. rewrite (IH rest bs); [lia|lia|done].
Qed.

(** X18: the shape of what [ExtractRawBytes] accepts.  The empty result
    comes from the two quotes alone and from nothing else; a result of [n]
    bytes, [n] not zero, comes from an input of exactly [2n + 4] bytes: the
    two quotes, the prefix, and two digits per byte. *)
Theorem ExtractRawBytes_accepts (input b : list byte) :
  ExtractRawBytes input = inl b ->
  (b = [] /\ input = [dquote; dquote]) \/
  (b <> [] /\ length input = (2 * length b + 4)%nat).
Proof.
  intros Hok.
  assert (exists content, input = dquote :: content ++ [dquote]) as [content ->].
  { unfold ExtractRawBytes in Hok.
    destruct (length input <? 2)%nat eqn:H2; [done|]. apply Nat.ltb_ge in H2.
    destruct (decide (input !! 0%nat = Some dquote)) as [H0|H0];
      [|by rewrite (bool_decide_eq_false_2 _ H0) in Hok].
    destruct (decide (input !! (length input - 1)%nat = Some dquote)) as [H1|H1];
      [|by rewrite (bool_decide_eq_false_2 _ H1), orb_true_r in Hok].
    by apply surrounded_of_checks. }
  rewrite ExtractRawBytes_quoted in Hok.
  destruct content as [|c0 content]; [left; by injection Hok as <-|].
  right. change (length (c0 :: content) =? 0)%nat with false in Hok. cbv iota in Hok.
  destruct (_ || _) eqn:Hlen; [done|]. apply orb_false_iff in Hlen as [Hlen _].
  apply Nat.ltb_ge in Hlen.
  unfold utils.TryParseHex in Hok.
  destruct content as [|c1 rest]; [cbn in Hlen; lia|]. cbn [utils.HasHexPrefix drop] in Hok.
  destruct (_ && _); [|done]. rewrite drop_0 in Hok.
  destruct (utils.DecodeString rest) as [bs|] eqn:Hdec; [|done]. injection Hok as <-.
  apply (DecodeString_length _ _ _ (le_n _)) in Hdec.
  cbn [length] in *. rewrite length_app. cbn [length]. split; [|lia].
  intros ->. cbn [length] in Hdec. lia.
Qed.

End Decoding.

(** ** The listener: what a handler leaves behind *)

Section Handlers.
Import directrequestocr.

(** Unfolds a handler down to the stores and the trace. *)
Ltac open_calls :=
  unfold handleOracleRequest, handleOracleResponse, CreateRequest, Run,
    markLogConsumed, MarkConsumed, FindTaskResultByRunIDAndTaskName,
    SetError, SetResult, SetConfirmed, setRequestState.

(** Counts events on a world written out as a record. *)
Ltac count_calls :=
  unfold sample.count, emit; cbn [trace consumed requests];
  repeat rewrite List.filter_app; repeat rewrite length_app;
  cbn [List.filter length sample.isRun sample.isCreateRequest sample.isSetError
         sample.isSetResult sample.isSetConfirmed sample.isMarkConsumed];
  lia.

(** **** Each collaborator call, exactly *)

Lemma CreateRequest_spec env id createdAt txHash w w' err :
  CreateRequest env id createdAt txHash w = (w', err) ->
  err = createRequestErr env id /\
  trace w' = trace w ++ [CallCreateRequest id] /\
  consumed w' = consumed w /\
  requests w' =
    match err with
    | Some _ => requests w
    | None => <[id := {| CreatedAt := createdAt; RequestTxHash := txHash;
                         State := PENDING |}]> (requests w)
    end.
Proof.
  unfold CreateRequest. by destruct (createRequestErr env id); intros [= <- <-].
Qed.

Lemma Run_spec env request lb w w' runID err :
  Run env request lb (markLogConsumed env lb) w = (w', runID, err) ->
  (runID, err) = pipelineRun env request lb /\
  requests w' = requests w /\
  trace w' =
    trace w ++ CallRun lb ::
      match err with
      | Some _ => []
      | None =>
          CallMarkConsumed lb ::
            match markConsumedErr env lb with
            | Some _ => [Logged "Unable to mark log consumed"]
            | None => []
            end
      end /\
  consumed w' =
    match err, markConsumedErr env lb with
    | None, None => {[lbKey lb]} ∪ consumed w
    | _, _ => consumed w
    end.
Proof.
  unfold Run, markLogConsumed, MarkConsumed.
  destruct (pipelineRun env request lb) as [r [e|]].
  - by intros [= <- <- <-].
  - destruct (markConsumedErr env lb); intros [= <- <- <-];
      cbn [emit trace requests consumed]; by rewrite <-?app_assoc.
Qed.

Lemma FindTaskResult_spec env runID task w w' b err :
  FindTaskResultByRunIDAndTaskName env runID task w = (w', b, err) ->
  (b, err) = findTaskResult env runID task /\
  trace w' = trace w ++ [CallFindTaskResult runID task] /\
  consumed w' = consumed w /\
  requests w' = requests w.
Proof.
  unfold FindTaskResultByRunIDAndTaskName.
  destruct (findTaskResult env runID task). by intros [= <- <- <-].
Qed.

Lemma SetError_spec env id runID kind payload w w' err :
  SetError env id runID kind payload w = (w', err) ->
  err = setErrorErr env id /\
  trace w' = trace w ++ [CallSetError id runID kind payload] /\
  consumed w' = consumed w /\
  requests w' =
    match err with
    | Some _ => requests w
    | None => alter (fun r => {| CreatedAt := CreatedAt r; RequestTxHash := RequestTxHash r;
                                 State := ERROR_SET runID kind payload |}) id (requests w)
    end.
Proof. unfold SetError. by destruct (setErrorErr env id); intros [= <- <-]. Qed.

Lemma SetResult_spec env id runID result w w' err :
  SetResult env id runID result w = (w', err) ->
  err = setResultErr env id /\
  trace w' = trace w ++ [CallSetResult id runID result] /\
  consumed w' = consumed w /\
  requests w' =
    match err with
    | Some _ => requests w
    | None => alter (fun r => {| CreatedAt := CreatedAt r; RequestTxHash := RequestTxHash r;
                                 State := RESULT_SET runID result |}) id (requests w)
    end.
Proof. unfold SetResult. by destruct (setResultErr env id); intros [= <- <-]. Qed.

Lemma SetConfirmed_spec env id w w' err :
  SetConfirmed env id w = (w', err) ->
  err = setConfirmedErr env id /\
  trace w' = trace w ++ [CallSetConfirmed id] /\
  consumed w' = consumed w /\
  requests w' =
    match err with
    | Some _ => requests w
    | None => alter (fun r => {| CreatedAt := CreatedAt r; RequestTxHash := RequestTxHash r;
                                 State := CONFIRMED |}) id (requests w)
    end.
Proof. unfold SetConfirmed. by destruct (setConfirmedErr env id); intros [= <- <-]. Qed.

(** X19: what [handleOracleRequest] records when the row is created, the
    run succeeds and both task outputs are found and decoded.  A decoded
    error that is not empty is recorded with [SetError] as a user
    exception and the result is not recorded; an empty decoded error has
    the decoded result recorded with [SetResult].  Exactly one of the two
    calls is made, and when it succeeds the row is in the state it names. *)
Theorem handleOracleRequest_records_outcome env request lb w runID b1 r b2 e :
  createRequestErr env (RequestId request) = None ->
  pipelineRun env request lb = (runID, None) ->
  findTaskResult env runID ParseResultTaskName = (b1, None) ->
  ExtractRawBytes b1 = inl r ->
  findTaskResult env runID ParseErrorTaskName = (b2, None) ->
  ExtractRawBytes b2 = inl e ->
  (e <> [] ->
   sample.count sample.isSetError (handleOracleRequest env request lb w)
     = S (sample.count sample.isSetError w) /\
   sample.count sample.isSetResult (handleOracleRequest env request lb w)
     = sample.count sample.isSetResult w /\
   (setErrorErr env (RequestId request) = None ->
    requests (handleOracleRequest env request lb w) !! RequestId request
      = Some {| CreatedAt := now env; RequestTxHash := TxHash (Raw request);
                State := ERROR_SET runID USER_EXCEPTION e |})) /\
  (e = [] ->
   sample.count sample.isSetResult (handleOracleRequest env request lb w)
     = S (sample.count sample.isSetResult w) /\
   sample.count sample.isSetError (handleOracleRequest env request lb w)
     = sample.count sample.isSetError w /\
   (setResultErr env (RequestId request) = None ->
    requests (handleOracleRequest env request lb w) !! RequestId request
      = Some {| CreatedAt := now env; RequestTxHash := TxHash (Raw request);
                State := RESULT_SET runID r |})).
Proof.
  intros Hcreate Hrun Hf1 Hr Hf2 He. unfold handleOracleRequest.
  destruct (CreateRequest _ _ _ _ _) as [w1 err1] eqn:E1.
  apply CreateRequest_spec in E1 as (Herr1 & Ht1 & _ & Hr1).
  rewrite Hcreate in Herr1. subst err1.
  destruct (Run _ _ _ _ _) as [[w2 run] err2] eqn:E2.
  apply Run_spec in E2 as (Hp & Hr2 & Ht2 & _).
  rewrite Hrun in Hp. injection Hp as -> ->.
  destruct (FindTaskResultByRunIDAndTaskName _ _ ParseResultTaskName _)
    as [[w3 c1] err3] eqn:E3.
  apply FindTaskResult_spec in E3 as (Hp & Ht3 & _ & Hr3).
  rewrite Hf1 in Hp. injection Hp as -> ->. rewrite Hr.
  destruct (FindTaskResultByRunIDAndTaskName _ _ ParseErrorTaskName _)
    as [[w4 c2] err4] eqn:E4.
  apply FindTaskResult_spec in E4 as (Hp & Ht4 & _ & Hr4).
  rewrite Hf2 in Hp. injection Hp as -> ->. rewrite He.
  assert (requests w4 !! RequestId request
          = Some {| CreatedAt := now env; RequestTxHash := TxHash (Raw request);
                    State := PENDING |}) as Hrow.
  { rewrite Hr4, Hr3, Hr2, Hr1. apply lookup_insert_eq. }
  assert (length (List.filter sample.isSetError (trace w4))
          = length (List.filter sample.isSetError (trace w)) /\
          length (List.filter sample.isSetResult (trace w4))
          = length (List.filter sample.isSetResult (trace w))) as [HcE HcR].
  { rewrite Ht4, Ht3, Ht2, Ht1. cbn [emit trace].
    rewrite !List.filter_app, !length_app.
    destruct (markConsumedErr env lb); cbn; lia. }
  split.
  - intros Hne. destruct e as [|e0 e]; [done|]. cbn [length Nat.eqb negb].
    destruct (SetError _ _ _ _ _ _) as [w5 err5] eqn:E5.
    apply SetError_spec in E5 as (Herr5 & Ht5 & _ & Hr5).
    assert (trace (match err5 with
                   | Some _ => emit (Logged "Call to SetError failed for request") w5
                   | None => w5
                   end) =
            trace w4 ++ CallSetError (RequestId request) runID USER_EXCEPTION (e0 :: e)
              :: match err5 with
                 | Some _ => [Logged "Call to SetError failed for request"]
                 | None => []
                 end) as Htr.
    { destruct err5; cbn [emit trace]; rewrite Ht5; by rewrite <-?app_assoc. }
    split_and!.
    + unfold sample.count. rewrite Htr, !List.filter_app, !length_app.
      destruct err5; cbn; lia.
    + unfold sample.count. rewrite Htr, !List.filter_app, !length_app.
      destruct err5; cbn; lia.
    + intros Hset. rewrite Hset in Herr5. subst err5. rewrite Hr5, lookup_alter_eq, Hrow.
      done.
  - intros ->. cbn [length Nat.eqb negb].
    destruct (SetResult _ _ _ _ _) as [w5 err5] eqn:E5.
    apply SetResult_spec in E5 as (Herr5 & Ht5 & _ & Hr5).
    assert (trace (match err5 with
                   | Some _ => emit (Logged "Call to SetResult failed for request") w5
                   | None => w5
                   end) =
            trace w4 ++ CallSetResult (RequestId request) runID r
              :: match err5 with
                 | Some _ => [Logged "Call to SetResult failed for request"]
                 | None => []
                 end) as Htr.
    { destruct err5; cbn [emit trace]; rewrite Ht5; by rewrite <-?app_assoc. }
    split_and!.
    + unfold sample.count. rewrite Htr, !List.filter_app, !length_app.
      destruct err5; cbn; lia.
    + unfold sample.count. rewrite Htr, !List.filter_app, !length_app.
      destruct err5; cbn; lia.
    + intros Hset. rewrite Hset in Herr5. subst err5. rewrite Hr5, lookup_alter_eq, Hrow.
      done.
Qed.

(** X20: where [handleOracleRequest] gives up.  When the row cannot be
    created, nothing else is done: no pipeline run, the stores are as
    before.  When the row is created and the pipeline run fails, the
    failure is logged and that is all: no task output is looked up, no
    state is recorded, the row stays pending and the record is not marked
    consumed. *)
Theorem handleOracleRequest_gives_up env request lb w :
  (forall e,
      createRequestErr env (RequestId request) = Some e ->
      trace (handleOracleRequest env request lb w) =
        trace w ++ [Logged "Oracle request received";
                    CallCreateRequest (RequestId request);
                    Logged "Failed to create a DB entry for new request"] /\
      requests (handleOracleRequest env request lb w) = requests w /\
      consumed (handleOracleRequest env request lb w) = consumed w) /\
  (forall runID e,
      createRequestErr env (RequestId request) = None ->
      pipelineRun env request lb = (runID, Some e) ->
      trace (handleOracleRequest env request lb w) =
        trace w ++ [Logged "Oracle request received";
                    CallCreateRequest (RequestId request);
                    CallRun lb;
                    Logged "Pipeline run failed for request"] /\
      requests (handleOracleRequest env request lb w) !! RequestId request
        = Some {| CreatedAt := now env; RequestTxHash := TxHash (Raw request);
                  State := PENDING |} /\
      consumed (handleOracleRequest env request lb w) = consumed w).
Proof.
  split.
  - intros e Hcreate. open_calls. rewrite Hcreate.
    cbn [consumed requests trace emit]. by rewrite <-!app_assoc.
  - intros runID e Hcreate Hrun. open_calls. rewrite Hcreate, Hrun.
    cbn [consumed requests trace emit]. rewrite <-!app_assoc.
    split_and!; [done| |done]. apply lookup_insert_eq.
Qed.

(** **** Confinement, one collaborator call at a time *)

Lemma confined_refl id key w : sample.confined id key w w.
Proof. split_and!; [done|done|done|set_solver]. Qed.

Lemma confined_trans id key w1 w2 w3 :
  sample.confined id key w1 w2 -> sample.confined id key w2 w3 ->
  sample.confined id key w1 w3.
Proof.
  intros (Ht & Hr & Hc & Hc') (Ht' & Hr' & Hd & Hd'). split_and!.
  - by etrans.
  - intros j Hj. by rewrite Hr', Hr.
  - set_solver.
  - set_solver.
Qed.

Lemma confined_emit id key e w : sample.confined id key w (emit e w).
Proof.
  split_and!; cbn [emit trace requests consumed]; [|done|done|set_solver].
  by apply prefix_app_r.
Qed.

Lemma confined_setRequestState id key st w :
  sample.confined id key w (setRequestState id st w).
Proof.
  split_and!; cbn [setRequestState trace requests consumed]; [done| |done|set_solver].
  intros j Hj. by rewrite lookup_alter_ne.
Qed.

Lemma SetError_confined env id key runID kind payload w w' err :
  SetError env id runID kind payload w = (w', err) -> sample.confined id key w w'.
Proof.
  unfold SetError. destruct (setErrorErr env id); intros [= <- <-].
  - apply confined_emit.
  - eapply confined_trans; [apply confined_emit|apply confined_setRequestState].
Qed.

Lemma SetResult_confined env id key runID result w w' err :
  SetResult env id runID result w = (w', err) -> sample.confined id key w w'.
Proof.
  unfold SetResult. destruct (setResultErr env id); intros [= <- <-].
  - apply confined_emit.
  - eapply confined_trans; [apply confined_emit|apply confined_setRequestState].
Qed.

Lemma SetConfirmed_confined env id key w w' err :
  SetConfirmed env id w = (w', err) -> sample.confined id key w w'.
Proof.
  unfold SetConfirmed. destruct (setConfirmedErr env id); intros [= <- <-].
  - apply confined_emit.
  - eapply confined_trans; [apply confined_emit|apply confined_setRequestState].
Qed.

Lemma FindTaskResult_confined env id key runID task w w' b err :
  FindTaskResultByRunIDAndTaskName env runID task w = (w', b, err) ->
  sample.confined id key w w'.
Proof.
  unfold FindTaskResultByRunIDAndTaskName.
  destruct (findTaskResult env runID task). intros [= <- _ _]. apply confined_emit.
Qed.

Lemma CreateRequest_confined env id key createdAt txHash w w' err :
  CreateRequest env id createdAt txHash w = (w', err) -> sample.confined id key w w'.
Proof.
  unfold CreateRequest. destruct (createRequestErr env id); intros [= <- <-].
  - apply confined_emit.
  - split_and!; cbn [emit trace requests consumed]; [|  |done|set_solver].
    + by apply prefix_app_r.
    + intros j Hj. by rewrite lookup_insert_ne.
Qed.

Lemma Run_confined env id request lb w w' runID err :
  Run env request lb (markLogConsumed env lb) w = (w', runID, err) ->
  sample.confined id (lbKey lb) w w'.
Proof.
  unfold Run, markLogConsumed, MarkConsumed.
  destruct (pipelineRun env request lb) as [r [e|]].
  - intros [= <- _ _]. apply confined_emit.
  - destruct (markConsumedErr env lb); intros [= <- _].
    + eapply confined_trans; [apply confined_emit|].
      eapply confined_trans; apply confined_emit.
    + split_and!; cbn [emit trace requests consumed]; [|done|set_solver|set_solver].
      rewrite <-app_assoc. by apply prefix_app_r.
Qed.

(** Chains the confinement of the calls made so far up to the goal. *)
Ltac confined_chain :=
  repeat first
    [ apply confined_refl
    | apply confined_emit
    | eapply confined_trans; [eassumption|] ].

(** X21: a run of [handleOracleRequest] is confined to its own request and
    its own record: it only adds to the trace, it changes no row but the
    row of its request identifier, it removes no consumed marker and sets
    none but the marker of the record it handles. *)
Theorem handleOracleRequest_confined env request lb w :
  sample.confined (RequestId request) (lbKey lb) w (handleOracleRequest env request lb w).
Proof.
  pose proof (confined_emit (RequestId request) (lbKey lb)
                (Logged "Oracle request received") w) as H0.
  unfold handleOracleRequest.
  repeat case_match; simplify_eq;
    repeat match goal with
      | H : SetError _ _ _ _ _ _ = _ |- _ =>
          apply (SetError_confined _ _ (lbKey lb)) in H
      | H : SetResult _ _ _ _ _ = _ |- _ =>
          apply (SetResult_confined _ _ (lbKey lb)) in H
      | H : FindTaskResultByRunIDAndTaskName _ _ _ _ = _ |- _ =>
          apply (FindTaskResult_confined _ (RequestId request) (lbKey lb)) in H
      | H : CreateRequest _ _ _ _ _ = _ |- _ =>
          apply (CreateRequest_confined _ _ (lbKey lb)) in H
      | H : Run _ _ _ _ _ = _ |- _ =>
          apply (Run_confined _ (RequestId request)) in H
      end;
    confined_chain.
Qed.

(** X22: [handleOracleRequest] leaves the record marked consumed exactly
    when the row was created, the pipeline run succeeded and [MarkConsumed]
    succeeded; in every other case the set of markers is as it was,
    whatever happened to the task outputs afterwards. *)
Theorem handleOracleRequest_marks_consumed env request lb w :
  consumed (handleOracleRequest env request lb w) =
    match createRequestErr env (RequestId request),
          (pipelineRun env request lb).2,
          markConsumedErr env lb with
    | None, None, None => {[lbKey lb]} ∪ consumed w
    | _, _, _ => consumed w
    end.
Proof.
  unfold handleOracleRequest.
  destruct (CreateRequest _ _ _ _ _) as [w1 err1] eqn:E1.
  apply CreateRequest_spec in E1 as (-> & _ & Hc1 & _). cbn [emit consumed] in Hc1.
  destruct (createRequestErr env (RequestId request)); [done|].
  destruct (Run _ _ _ _ _) as [[w2 run] err2] eqn:E2.
  apply Run_spec in E2 as (Hp & _ & _ & Hc2). rewrite <-Hp. cbn [snd].
  rewrite Hc1 in Hc2.
  destruct err2; [done|].
  repeat case_match; simplify_eq;
    repeat match goal with
      | H : SetError _ _ _ _ _ _ = _ |- _ => apply SetError_spec in H as (_ & _ & ? & _)
      | H : SetResult _ _ _ _ _ = _ |- _ => apply SetResult_spec in H as (_ & _ & ? & _)
      | H : FindTaskResultByRunIDAndTaskName _ _ _ _ = _ |- _ =>
          apply FindTaskResult_spec in H as (_ & _ & ? & _)
      end;
    cbn [emit consumed]; congruence.
Qed.

(** Everything [handleOracleResponse] does. *)
Lemma handleOracleResponse_effects env response lb w :
  trace (handleOracleResponse env response lb w) =
    trace w ++ [Logged "Oracle response received";
                CallSetConfirmed (ResponseRequestId response)] ++
      match setConfirmedErr env (ResponseRequestId response) with
      | Some _ => [Logged "Setting CONFIRMED state failed for request"]
      | None => []
      end /\
  consumed (handleOracleResponse env response lb w) = consumed w /\
  dom (requests (handleOracleResponse env response lb w)) = dom (requests w) /\
  (forall j, j <> ResponseRequestId response ->
     requests (handleOracleResponse env response lb w) !! j = requests w !! j) /\
  (setConfirmedErr env (ResponseRequestId response) = None ->
   requests (handleOracleResponse env response lb w) !! ResponseRequestId response =
     (fun r => {| CreatedAt := CreatedAt r; RequestTxHash := RequestTxHash r;
                  State := CONFIRMED |}) <$> requests w !! ResponseRequestId response).
Proof.
  unfold handleOracleResponse.
  destruct (SetConfirmed _ _ _) as [w1 err1] eqn:E1.
  apply SetConfirmed_spec in E1 as (-> & Ht & Hc & Hr). cbn [emit trace consumed requests] in *.
  destruct (setConfirmedErr env (ResponseRequestId response));
    cbn [emit trace consumed requests]; rewrite Ht, Hc, Hr, <-?app_assoc;
    split_and!; try done.
  - by rewrite dom_alter_L.
  - intros j Hj. by rewrite lookup_alter_ne.
  - intros _. by rewrite lookup_alter_eq.
Qed.

(** X23: [handleOracleResponse] makes one call, [SetConfirmed] for the
    request identifier of the response; when the call succeeds the row of
    that identifier, if there is one, is confirmed with its other fields
    kept, and no row is created if there is none; a failure is only
    logged.  The handler never marks the record consumed. *)
Theorem handleOracleResponse_confirms env response lb w :
  trace (handleOracleResponse env response lb w) =
    trace w ++ [Logged "Oracle response received";
                CallSetConfirmed (ResponseRequestId response)] ++
      match setConfirmedErr env (ResponseRequestId response) with
      | Some _ => [Logged "Setting CONFIRMED state failed for request"]
      | None => []
      end /\
  consumed (handleOracleResponse env response lb w) = consumed w /\
  dom (requests (handleOracleResponse env response lb w)) = dom (requests w) /\
  (forall j, j <> ResponseRequestId response ->
     requests (handleOracleResponse env response lb w) !! j = requests w !! j) /\
  (setConfirmedErr env (ResponseRequestId response) = None ->
   requests (handleOracleResponse env response lb w) !! ResponseRequestId response =
     (fun r => {| CreatedAt := CreatedAt r; RequestTxHash := RequestTxHash r;
                  State := CONFIRMED |}) <$> requests w !! ResponseRequestId response).
Proof. apply handleOracleResponse_effects. Qed.

End Handlers.

(** ** The listener: dispatching and sweeping *)

Section Dispatching.
Import directrequestocr.

(** The body of the dispatch loop changes no store and starts at most one
    goroutine, which is for the record at hand. *)
Lemma dispatch_tasks env lb w w' ts :
  dispatch env lb w = (w', ts) ->
  sample.quiet w w' /\
  (ts = [] \/ exists t, ts = [t] /\ taskLog t = lb).
Proof.
  unfold dispatch. destruct (WasAlreadyConsumed env w lb) as [was [e|]].
  - intros [= <- <-]. split; [apply quiet_Logged|by left].
  - destruct was; [intros [= <- <-]; split; [apply quiet_refl|by left]|].
    destruct (decoded lb); intros [= <- <-];
      (split; [first [apply quiet_refl|apply quiet_Logged]|]);
      first [by left|right; by eexists].
Qed.

Lemma drain_until_empty env chStop q : forall i w,
  (forall j, (j <= length q)%nat -> chStop (i + j)%nat = false) ->
  exists w' ts,
    drain env chStop i q w = (w', ts, [], MailboxEmpty) /\
    (taskLog <$> ts) `sublist_of` q /\
    sample.quiet w w'.
Proof.
  induction q as [|lb q IH]; intros i w Hopen.
  - exists w, []. cbn [drain].
    pose proof (Hopen 0%nat (Nat.le_0_l _)) as H0. rewrite Nat.add_0_r in H0. rewrite H0.
    split_and!; [done|done|apply quiet_refl].
  - cbn [drain].
    pose proof (Hopen 0%nat (Nat.le_0_l _)) as H0. rewrite Nat.add_0_r in H0. rewrite H0.
    destruct (dispatch env lb w) as [w1 ts1] eqn:Hd.
    apply dispatch_tasks in Hd as [Hq Hts].
    destruct (IH (S i) w1) as (w' & ts & -> & Hsub & Hq').
    { intros j Hj. replace (S i + j)%nat with (i + S j)%nat by lia.
      apply Hopen. cbn [length]. lia. }
    exists w', (ts1 ++ ts). split_and!; [done| |by eapply quiet_trans].
    destruct Hts as [->|(t & -> & <-)]; cbn.
    + by apply sublist_cons.
    + by apply sublist_skip.
Qed.

Lemma drain_until_stop env chStop (k : nat) : forall q i w,
  (k <= length q)%nat ->
  (forall j, (j < k)%nat -> chStop (i + j)%nat = false) ->
  chStop (i + k)%nat = true ->
  exists w' ts,
    drain env chStop i q w = (w', ts, drop k q, StopSeen) /\
    (taskLog <$> ts) `sublist_of` take k q /\
    sample.quiet w w'.
Proof.
  induction k as [|k IH]; intros q i w Hk Hopen Hstop.
  - exists w, []. rewrite Nat.add_0_r in Hstop.
    destruct q; cbn [drain]; rewrite Hstop; (split_and!; [done| |apply quiet_refl]);
      cbn; constructor.
  - destruct q as [|lb q]; [cbn in Hk; lia|]. cbn [drain].
    pose proof (Hopen 0%nat (Nat.lt_0_succ _)) as H0. rewrite Nat.add_0_r in H0. rewrite H0.
    destruct (dispatch env lb w) as [w1 ts1] eqn:Hd.
    apply dispatch_tasks in Hd as [Hq Hts].
    destruct (IH q (S i) w1) as (w' & ts & -> & Hsub & Hq').
    { cbn in Hk. lia. }
    { intros j Hj. replace (S i + j)%nat with (i + S j)%nat by lia. apply Hopen. lia. }
    { by replace (S i + k)%nat with (i + S k)%nat by lia. }
    exists w', (ts1 ++ ts). cbn [drop take]. split_and!; [done| |by eapply quiet_trans].
    destruct Hts as [->|(t & -> & <-)]; cbn.
    + by apply sublist_cons.
    + by apply sublist_skip.
Qed.

(** X24: the drain of the mailbox.  While the stop channel stays open the
    loop empties the mailbox.  When the channel is found closed at the
    [k]-th look, the loop returns, and the records not yet retrieved are
    still in the mailbox, in order.  Either way the goroutines started are
    for records retrieved, at most one for each and in the order of
    retrieval, and the loop itself makes no pipeline run, creates no row
    and sets no marker. *)
Theorem drain_stops_or_empties env chStop q i w :
  ((forall j, (j <= length q)%nat -> chStop (i + j)%nat = false) ->
   exists w' ts,
     drain env chStop i q w = (w', ts, [], MailboxEmpty) /\
     (taskLog <$> ts) `sublist_of` q /\
     sample.quiet w w') /\
  (forall k,
     (k <= length q)%nat ->
     (forall j, (j < k)%nat -> chStop (i + j)%nat = false) ->
     chStop (i + k)%nat = true ->
     exists w' ts,
       drain env chStop i q w = (w', ts, drop k q, StopSeen) /\
       (taskLog <$> ts) `sublist_of` take k q /\
       sample.quiet w w').
Proof.
  split.
  - apply drain_until_empty.
  - intros k. apply drain_until_stop.
Qed.

(** X25: a record that decodes to nothing, or to a log of another kind,
    never reaches a handler: [HandleLog] leaves the mailbox as it is, also
    when it is full, and only logs; and were such a record in the mailbox,
    the dispatch loop would start no goroutine for it. *)
Theorem unrecognised_log_is_dropped env lb mb w :
  (decoded lb = NilLog \/ exists typ, decoded lb = OtherLog typ) ->
  (HandleLog lb mb w).1 = mb /\
  sample.quiet w (HandleLog lb mb w).2 /\
  requests (HandleLog lb mb w).2 = requests w /\
  (dispatch env lb w).2 = [].
Proof.
  intros Hdec. unfold HandleLog, dispatch.
  destruct (WasAlreadyConsumed env w lb) as [[] [e|]];
    destruct Hdec as [->|[typ ->]]; cbn [fst snd];
    (split_and!; [done|apply quiet_Logged|done|done]).
Qed.

(** One delivery of a response record that is not marked consumed, to a
    listener whose mailbox is empty. *)
Lemma deliver_response env lb response cap w :
  decoded lb = OracleResponse response ->
  wasAlreadyConsumedErr env lb = None ->
  lbKey lb ∉ consumed w ->
  exists w0,
    sample.quiet w w0 /\
    sample.count sample.isSetConfirmed w0 = sample.count sample.isSetConfirmed w /\
    sample.count sample.isMarkConsumed w0 = sample.count sample.isMarkConsumed w /\
    sample.deliver env lb {| utils.queue := []; utils.capacity := cap |} w =
      ({| utils.queue := []; utils.capacity := cap |},
       handleOracleResponse env response lb w0).
Proof.
  intros Hdec Herr Hfresh.
  unfold sample.deliver, HandleLog, utils.Deliver. rewrite Hdec.
  cbn [utils.queue utils.capacity length].
  destruct (0 <? cap)%nat.
  - exists w. split_and!; [apply quiet_refl|done|done|].
    unfold processOracleEvents.
    cbn [utils.queue utils.capacity app drain sample.neverStopped].
    unfold dispatch, WasAlreadyConsumed. rewrite Herr, Hdec.
    by rewrite bool_decide_eq_false_2.
  - eexists. split_and!; [apply quiet_Logged| | |].
    + by rewrite count_emit.
    + by rewrite count_emit.
    + unfold processOracleEvents.
      cbn [utils.queue utils.capacity app drop drain sample.neverStopped].
      unfold dispatch, WasAlreadyConsumed. rewrite Herr, Hdec.
      by rewrite bool_decide_eq_false_2.
Qed.

(** X26: a response record is never marked consumed, so the marker store
    does not protect it against redelivery: delivered twice, it is handled
    twice, and [SetConfirmed] is called twice. *)
Theorem response_redelivery_is_handled_again env lb response cap w mb1 w1 mb2 w2 :
  decoded lb = OracleResponse response ->
  wasAlreadyConsumedErr env lb = None ->
  lbKey lb ∉ consumed w ->
  sample.deliver env lb {| utils.queue := []; utils.capacity := cap |} w = (mb1, w1) ->
  sample.deliver env lb mb1 w1 = (mb2, w2) ->
  sample.count sample.isSetConfirmed w2 = S (S (sample.count sample.isSetConfirmed w)) /\
  sample.count sample.isMarkConsumed w2 = sample.count sample.isMarkConsumed w /\
  consumed w2 = consumed w.
Proof.
  intros Hdec Herr Hfresh H1 H2.
  assert (forall w0, 
            sample.count sample.isSetConfirmed (handleOracleResponse env response lb w0)
              = S (sample.count sample.isSetConfirmed w0) /\
            sample.count sample.isMarkConsumed (handleOracleResponse env response lb w0)
              = sample.count sample.isMarkConsumed w0 /\
            consumed (handleOracleResponse env response lb w0) = consumed w0) as Hh.
  { intros w0.
    destruct (handleOracleResponse_effects env response lb w0) as (Ht & Hc & _).
    unfold sample.count. rewrite Ht, !List.filter_app, !length_app.
    destruct (setConfirmedErr env (ResponseRequestId response)); cbn; split_and!; try done; lia. }
  destruct (deliver_response env lb response cap w Hdec Herr Hfresh)
    as (w0 & (_ & _ & Hc0 & _) & Hs0 & Hm0 & E1).
  rewrite E1 in H1. injection H1 as <- <-.
  destruct (Hh w0) as (Hs1 & Hm1 & Hc1).
  destruct (deliver_response env lb response cap (handleOracleResponse env response lb w0)
              Hdec Herr) as (w0' & (_ & _ & Hc0' & _) & Hs0' & Hm0' & E2).
  { rewrite Hc1, Hc0. done. }
  rewrite E2 in H2. injection H2 as _ <-.
  destruct (Hh w0') as (Hs2 & Hm2 & Hc2).
  split_and!; congruence.
Qed.




End Dispatching.

(** ** Further properties, on the sample values *)

(** What the sample database answers. *)
Lemma sample_UpdateChain_44 :
  evm.UpdateChain sample.database44 44 true 5 =
    ((evm.UpdateChain sample.database44 44 true 5).1,
     ({| evm.ID := 44; evm.Cfg := 5; evm.Nodes := []; evm.Enabled := true |}, None)).
Proof. vm_compute. reflexivity. Qed.

Lemma sample_NodesForChain_44 :
  evm.NodesForChain (evm.UpdateChain sample.database44 44 true 5).1 44 0 evm.MaxInt16 =
    ([sample.primaryNode], 1, None).
Proof. vm_compute. reflexivity. Qed.

Lemma sample_UpdateChain_42 :
  evm.UpdateChain sample.database 42 false 5 =
    ((evm.UpdateChain sample.database 42 false 5).1,
     ({| evm.ID := 42; evm.Cfg := 5; evm.Nodes := []; evm.Enabled := false |}, None)).
Proof. vm_compute. reflexivity. Qed.

Lemma sample_NodesForChain_42 :
  evm.NodesForChain (evm.UpdateChain sample.database 42 false 5).1 42 0 evm.MaxInt16 =
    ([sample.primaryNode; sample.sendOnlyNode], 2, None).
Proof. vm_compute. reflexivity. Qed.

Lemma sample_loaded_opts : evm.checkOpts (evm.opts sample.loaded) = None.
Proof. reflexivity. Qed.

Lemma sample_loaded_44 : evm.chains sample.loaded !! pretty 44 = None.
Proof. vm_compute. reflexivity. Qed.

Lemma sample_loaded_42 : evm.chains sample.loaded !! pretty 42 = Some (Some sample.chain42).
Proof. vm_compute. reflexivity. Qed.

Lemma sample_newChain_44 :
  sample.newChain
    {| evm.ID := 44; evm.Cfg := 5; evm.Nodes := [sample.primaryNode]; evm.Enabled := true |}
    (evm.opts sample.loaded) = (Some sample.chain44, None).
Proof. reflexivity. Qed.

Lemma Configure_enable_then_Get_witness :
  exists cll',
    (evm.Configure sample.newChain sample.noErr sample.noErr sample.loaded
       sample.database44 44 true 5).1.1.2 = cll' /\
    evm.Get cll' (Some 44) = (Some sample.chain44, None) /\
    evm.ChainCount cll' = 2%nat.
Proof.
  destruct (Configure_enable_then_Get sample.newChain sample.noErr sample.noErr
              sample.loaded sample.database44 44 5 _ _ _ _ sample.chain44
              sample_loaded_opts
              sample_UpdateChain_44 sample_NodesForChain_44 sample_loaded_44
              sample_newChain_44 (eq_refl : sample.noErr sample.chain44 = None))
    as (cll' & HC & HG & Hn & _).
  exists cll'. rewrite HC. split_and!; [done|done|]. rewrite Hn. reflexivity.
Defined.

Lemma Configure_disable_then_Get_witness :
  exists cll',
    (evm.Configure sample.newChain sample.noErr sample.failing sample.loaded
       sample.database 42 false 5).1.1.2 = cll' /\
    evm.Get cll' (Some 42) = (None, Some (evm.ErrNotFound 42)) /\
    evm.ChainCount cll' = 0%nat.
Proof.
  destruct (Configure_disable_then_Get sample.newChain sample.noErr sample.failing
              sample.loaded sample.database 42 5 _ _ _ _ sample.chain42
              sample_UpdateChain_42 sample_NodesForChain_42 sample_loaded_42)
    as (cll' & HC & HG & Hn & _).
  exists cll'. rewrite HC. split_and!; [done|done|].
  apply (f_equal Nat.pred) in Hn. exact Hn.
Defined.

Lemma sample_UpdateChain_7 :
  evm.UpdateChain sample.database 7 true 5 =
    (sample.database, (evm.zeroChain, Some (evm.ErrNew "sql: no rows in result set"))).
Proof. vm_compute. reflexivity. Qed.

Lemma Configure_database_error_witness :
  evm.Configure sample.newChain sample.noErr sample.noErr sample.loaded
    sample.database 7 true 5 =
  (evm.Ret (evm.zeroChain, Some (evm.ErrNew "sql: no rows in result set")),
   sample.loaded, sample.database, []).
Proof.
  apply (proj1 (Configure_database_error sample.newChain sample.noErr sample.noErr
                  sample.loaded sample.database 7 true 5) _ evm.zeroChain).
  exact sample_UpdateChain_7.
Defined.

Lemma Configure_enable_failure_witness :
  (evm.Configure sample.newChain sample.failing sample.noErr sample.loaded
     sample.database44 44 true 5).1.1 =
  (evm.Ret (evm.zeroChain, Some (evm.ErrNew "dial failed")), sample.loaded).
Proof.
  rewrite (proj2 (Configure_enable_failure sample.newChain sample.failing sample.noErr
                    sample.loaded sample.database44 44 5 _ _ _ _
                    sample_UpdateChain_44 sample_NodesForChain_44 sample_loaded_44)
             sample.chain44 (evm.ErrNew "dial failed") sample_newChain_44
             (eq_refl : sample.failing sample.chain44 = Some (evm.ErrNew "dial failed"))).
  reflexivity.
Defined.

Lemma Configure_frame_witness :
  evm.defaultID
    (evm.Configure sample.newChain sample.noErr sample.noErr sample.loaded
       sample.database44 44 true 5).1.1.2 = Some 42 /\
  evm.chains
    (evm.Configure sample.newChain sample.noErr sample.noErr sample.loaded
       sample.database44 44 true 5).1.1.2 !! "42" = Some (Some sample.chain42).
Proof.
  destruct (evm.Configure sample.newChain sample.noErr sample.noErr sample.loaded
              sample.database44 44 true 5) as [[[r cll'] db'] evs] eqn:HC.
  destruct (Configure_frame _ _ _ _ _ _ _ _ _ _ _ _ HC) as (Hd & _ & Hk & _).
  cbn [fst snd]. split; [exact Hd|]. rewrite Hk; [reflexivity|discriminate].
Defined.

Lemma sample_newChain_nil_on_error d o p e :
  sample.newChain d o = (p, Some e) -> p = None.
Proof. unfold sample.newChain. destruct (existsb _ _); by intros [= <-]. Qed.

Lemma sample_registered_ok : evm.registered_ok sample.loaded.
Proof.
  intros k p. cbn [evm.chains sample.loaded].
  intros [<- <-]%lookup_singleton_Some. by exists sample.chain42.
Qed.

Lemma sample_UpdateChain_row (db db1 : gmap Z (evm.DbChain Z)) id enabled cfg d :
  evm.UpdateChain db id enabled cfg = (db1, (d, None)) -> evm.ID d = id.
Proof.
  cbn [evm.UpdateChain sample.memORM]. destruct (db !! id); [|discriminate].
  by intros [= _ <-].
Qed.

Lemma Configure_keeps_registry_keyed_witness :
  evm.registered_ok
    (evm.Configure sample.newChain sample.noErr sample.noErr sample.loaded
       sample.database44 44 true 5).1.1.2.
Proof.
  destruct (evm.Configure sample.newChain sample.noErr sample.noErr sample.loaded
              sample.database44 44 true 5) as [[[r cll'] db'] evs] eqn:HC.
  assert (exists r0, r = evm.Ret r0) as [r0 ->].
  { apply (f_equal (fun x => x.1.1.1)) in HC. vm_compute in HC. subst r. by eexists. }
  cbn [fst snd].
  apply (Configure_keeps_registry_keyed sample.newChain sample.noErr sample.noErr
           sample.loaded sample.database44 44 true 5 r0 cll' db' evs
           sample_newChain_sound sample_newChain_nil_on_error).
  - intros db1 d. apply sample_UpdateChain_row.
  - apply sample_registered_ok.
  - exact HC.
Defined.

Lemma Configure_disable_default_witness :
  exists r cll' evs,
    evm.Configure sample.newChain sample.noErr sample.noErr sample.loaded
      sample.database 42 false 5 =
      (evm.Ret r, cll', (evm.UpdateChain sample.database 42 false 5).1, evs) /\
    evm.Default cll' = (None, Some evm.ErrNoChains).
Proof.
  apply (Configure_disable_default sample.newChain sample.noErr sample.noErr
           sample.loaded sample.database 42 5 _ _ _ _ sample.chain42
           sample_UpdateChain_42 sample_NodesForChain_42 sample_loaded_42).
  reflexivity.
Defined.

Lemma NewChainSet_loaded_witness :
  evm.ChainCount sample.loaded = 1%nat /\
  dom (evm.chains sample.loaded) = list_to_set [pretty 42].
Proof.
  destruct (NewChainSet_loaded sample.newChain _ _ _ _ _ sample_NewChainSet)
    as (_ & Hdom & Hn & _).
  split; [exact Hn|exact Hdom].
Defined.

Lemma NewChainSet_duplicates_witness :
  exists cid evs,
    evm.NewChainSet sample.newChain sample.chainSetOpts
      [sample.dbchain42; sample.dbchain43; sample.dbchain42] =
    (None, Some (evm.ErrDuplicate cid), evs).
Proof.
  apply (proj2 (NewChainSet_duplicates sample.newChain sample.chainSetOpts
                  [sample.dbchain42; sample.dbchain43; sample.dbchain42] eq_refl)).
  intros Hnd. apply NoDup_cons in Hnd as [Hnot _]. apply Hnot. by left.
Defined.

Lemma LoadChainSet_edges_witness :
  evm.LoadChainSet sample.newChain
    {| evm.Config := Some {| evm.EVMDisabled := false; evm.DefaultChainID := None |};
       evm.Logger := None |} sample.database =
  (None, Some (evm.ErrNew "logger must be non-nil"), []).
Proof.
  apply (proj1 (LoadChainSet_edges sample.newChain _ sample.database)). reflexivity.
Defined.

Lemma Close_closes_every_chain_witness :
  exists e l,
    evm.Close sample.failing sample.loaded =
      (evm.Ret e, evm.Informed "EVM: stopping" :: (evm.Closed <$> l)) /\
    length l = 1%nat.
Proof.
  destruct (proj1 (Close_closes_every_chain sample.failing sample.noErr sample.loaded))
    as (e & l & HC & Hlen & _).
  { intros k p. cbn [evm.chains sample.loaded].
    intros [<- <-]%lookup_singleton_Some. by eexists. }
  exists e, l. split; [exact HC|]. rewrite Hlen. reflexivity.
Defined.

Lemma verifyLoop_keeps_identity_witness :
  client.chainID
    (client.verifyLoop sample.dialedNode
       [client.After (client.ChainIDOk 4); client.After (client.ChainIDOk 5)]).1.1 = 5 /\
  client.once
    (client.verifyLoop sample.dialedNode
       [client.After (client.ChainIDOk 4); client.After (client.ChainIDOk 5)]).1.1
    = client.Started.
Proof.
  destruct (client.verifyLoop sample.dialedNode _) as [[s' lg] st] eqn:E.
  apply verifyLoop_keeps_identity in E as (Hc & _ & Ho). cbn [fst].
  split; [exact Hc|]. apply Ho. intros l Hin.
  repeat (apply elem_of_cons in Hin as [[=]|Hin]). by apply elem_of_nil in Hin.
Defined.

Lemma verifyLoop_Alive_only_after_match_witness :
  client.After (client.ChainIDOk 5) ∈
    [client.After (client.ChainIDOk 4); client.After (client.ChainIDOk 5)].
Proof.
  apply (verifyLoop_Alive_only_after_match
           [client.After (client.ChainIDOk 4); client.After (client.ChainIDOk 5)]
           sample.dialedNode
           (client.setState sample.dialedNode client.SendOnlyNodeStateAlive)
           [client.ChainIDMismatch 4 5 "sendonly";
            client.NodeOnline client.SendOnlyNodeStateAlive]
           client.Returned eq_refl eq_refl).
  discriminate.
Defined.

Lemma verifyLoop_reaches_Alive_witness :
  exists lg,
    client.verifyLoop sample.dialedNode
      ([client.After (client.ChainIDErr "timeout"); client.After (client.ChainIDOk 4)] ++
       client.After (client.ChainIDOk 5) :: [client.After (client.ChainIDOk 4)]) =
    ({| client.state := client.SendOnlyNodeStateAlive; client.chainID := 5;
        client.name := "sendonly"; client.once := client.Started |}, lg, client.Returned).
Proof.
  apply (verifyLoop_reaches_Alive
           [client.After (client.ChainIDErr "timeout"); client.After (client.ChainIDOk 4)]
           [client.After (client.ChainIDOk 4)] sample.dialedNode eq_refl eq_refl).
Defined.

Lemma verifyLoop_keeps_retrying_witness :
  exists lg,
    client.verifyLoop sample.dialedNode
      [client.After (client.ChainIDErr "timeout"); client.After (client.ChainIDOk 4)] =
    ({| client.state := client.SendOnlyNodeStateInvalidChainID; client.chainID := 5;
        client.name := "sendonly"; client.once := client.Started |}, lg,
     client.Blocked) /\
    length lg = 2%nat.
Proof.
  apply (verifyLoop_keeps_retrying
           [client.After (client.ChainIDErr "timeout"); client.After (client.ChainIDOk 4)]
           sample.dialedNode eq_refl eq_refl).
Defined.

Lemma ExtractRawBytes_sprintf0x_witness :
  directrequestocr.ExtractRawBytes
    (directrequestocr.dquote :: directrequestocr.sprintf0x [xab; xcd] ++
     [directrequestocr.dquote]) = inl [xab; xcd].
Proof.
  apply (proj1 (ExtractRawBytes_sprintf0x [xab; xcd])). discriminate.
Defined.

Lemma ExtractRawBytes_accepts_witness :
  ([xab; xcd] = [] /\
   directrequestocr.quoted "0xabcd" = [directrequestocr.dquote; directrequestocr.dquote]) \/
  ([xab; xcd] <> [] /\ length (directrequestocr.quoted "0xabcd") = (2 * 2 + 4)%nat).
Proof.
  apply (ExtractRawBytes_accepts (directrequestocr.quoted "0xabcd") [xab; xcd]).
  reflexivity.
Defined.

Lemma handleOracleRequest_records_outcome_witness :
  directrequestocr.requests
    (directrequestocr.handleOracleRequest
       (sample.envOf None None (directrequestocr.quoted "0xabcd")
          (directrequestocr.quoted "0x01"))
       sample.request sample.requestLog sample.emptyWorld) !! 1234 =
  Some {| directrequestocr.CreatedAt := 1000; directrequestocr.RequestTxHash := 13;
          directrequestocr.State :=
            directrequestocr.ERROR_SET 7 directrequestocr.USER_EXCEPTION [x01] |}.
Proof.
  apply (proj1 (handleOracleRequest_records_outcome
                  (sample.envOf None None (directrequestocr.quoted "0xabcd")
                     (directrequestocr.quoted "0x01"))
                  sample.request sample.requestLog sample.emptyWorld 7
                  (directrequestocr.quoted "0xabcd") [xab; xcd]
                  (directrequestocr.quoted "0x01") [x01]
                  eq_refl eq_refl eq_refl eq_refl eq_refl eq_refl));
    [discriminate|reflexivity].
Defined.

Lemma handleOracleRequest_gives_up_witness :
  directrequestocr.requests
    (directrequestocr.handleOracleRequest
       (sample.envOf (Some "duplicate key") None [] [])
       sample.request sample.requestLog sample.emptyWorld) =
  directrequestocr.requests sample.emptyWorld /\
  directrequestocr.consumed
    (directrequestocr.handleOracleRequest
       (sample.envOf None (Some "run failed") [] [])
       sample.request sample.requestLog sample.emptyWorld) =
  directrequestocr.consumed sample.emptyWorld.
Proof.
  split.
  - apply (proj1 (handleOracleRequest_gives_up
                    (sample.envOf (Some "duplicate key") None [] [])
                    sample.request sample.requestLog sample.emptyWorld)
             "duplicate key" eq_refl).
  - apply (proj2 (handleOracleRequest_gives_up
                    (sample.envOf None (Some "run failed") [] [])
                    sample.request sample.requestLog sample.emptyWorld)
             7 "run failed" eq_refl eq_refl).
Defined.

Lemma handleOracleResponse_confirms_witness :
  directrequestocr.requests
    (directrequestocr.handleOracleResponse (sample.envOf None None [] [])
       {| directrequestocr.ResponseRequestId := 1234 |} sample.responseLog
       sample.pendingWorld) !! 1234 =
  Some {| directrequestocr.CreatedAt := 900; directrequestocr.RequestTxHash := 13;
          directrequestocr.State := directrequestocr.CONFIRMED |} /\
  directrequestocr.requests
    (directrequestocr.handleOracleResponse (sample.envOf None None [] [])
       {| directrequestocr.ResponseRequestId := 1234 |} sample.responseLog
       sample.pendingWorld) !! 77 = None.
Proof.
  destruct (handleOracleResponse_confirms (sample.envOf None None [] [])
              {| directrequestocr.ResponseRequestId := 1234 |} sample.responseLog
              sample.pendingWorld) as (_ & _ & _ & Hother & Hrow).
  cbn [directrequestocr.ResponseRequestId] in Hrow, Hother. split.
  - rewrite Hrow by reflexivity. reflexivity.
  - rewrite Hother by discriminate. reflexivity.
Defined.

Lemma drain_stops_or_empties_witness :
  exists w' ts,
    directrequestocr.drain (sample.envOf None None [] []) sample.stoppedAtSecondLook 0
      [sample.requestLog; sample.responseLog] sample.emptyWorld =
    (w', ts, [sample.responseLog], directrequestocr.StopSeen) /\
    (directrequestocr.taskLog <$> ts) `sublist_of` [sample.requestLog].
Proof.
  destruct (proj2 (drain_stops_or_empties (sample.envOf None None [] [])
                     sample.stoppedAtSecondLook [sample.requestLog; sample.responseLog]
                     0%nat sample.emptyWorld) 1%nat)
    as (w' & ts & HD & Hsub & _).
  - cbn. lia.
  - intros j Hj. assert (j = 0%nat) as -> by lia. reflexivity.
  - reflexivity.
  - exists w', ts. split; [exact HD|exact Hsub].
Defined.

Lemma unrecognised_log_is_dropped_witness :
  (directrequestocr.HandleLog sample.nilLog sample.emptyMailbox sample.emptyWorld).1
    = sample.emptyMailbox /\
  (directrequestocr.dispatch (sample.envOf None None [] []) sample.nilLog
     sample.emptyWorld).2 = [].
Proof.
  destruct (unrecognised_log_is_dropped (sample.envOf None None [] []) sample.nilLog
              sample.emptyMailbox sample.emptyWorld) as (Hmb & _ & _ & Hts).
  - left. reflexivity.
  - split; [exact Hmb|exact Hts].
Defined.

Lemma response_redelivery_is_handled_again_witness :
  sample.count sample.isSetConfirmed
    (sample.deliver (sample.envOf None None [] []) sample.responseLog
       (sample.deliver (sample.envOf None None [] []) sample.responseLog
          sample.emptyMailbox sample.pendingWorld).1
       (sample.deliver (sample.envOf None None [] []) sample.responseLog
          sample.emptyMailbox sample.pendingWorld).2).2 = 2%nat.
Proof.
  set (first := sample.deliver (sample.envOf None None [] []) sample.responseLog
                  sample.emptyMailbox sample.pendingWorld).
  set (second := sample.deliver (sample.envOf None None [] []) sample.responseLog
                   first.1 first.2).
  apply (response_redelivery_is_handled_again (sample.envOf None None [] [])
           sample.responseLog {| directrequestocr.ResponseRequestId := 1234 |} 3%nat
           sample.pendingWorld first.1 first.2 second.1 second.2 eq_refl eq_refl).
  - apply not_elem_of_empty.
  - apply surjective_pairing.
  - apply surjective_pairing.
Defined.

